(** * xbps-bin: the transaction engine of [bin/xbps-bin/install.c]

    A shallow embedding of [show_transaction_sizes], [check_pkg_hashes],
    [exec_transaction], [xbps_install_pkg], [xbps_autoupdate_pkgs] and
    [cleanup], followed by the properties of the transaction state machine.

    The functions of libxbps, proplib and libc that install.c calls are not
    defined in that file.  They are gathered in the record [libxbps]: an
    answer may depend on every call made so far, so each of them reads the
    trace of the events that happened before it.  Every call of libxbps
    and every [printf] appends one event to that trace; reading [errno]
    and allocating memory leave none. *)

From Stdlib Require Import ZArith NArith List String Ascii Bool Lia.
Import ListNotations.

Module Install.

Local Open Scope Z_scope.

(** ** Constants of the C environment *)

(** <errno.h>, with the values of Linux.  Only the fact that they are not
    zero matters below. *)
Definition ENOENT : Z := 2.
Definition EAGAIN : Z := 11.
Definition EINVAL : Z := 22.
Definition ERANGE : Z := 34.

(** <stdlib.h> *)
Definition EXIT_SUCCESS : Z := 0.
Definition EXIT_FAILURE : Z := 1.

(** [enum { TRANS_ONE, TRANS_ALL }] *)
Inductive trans_type : Type := TRANS_ONE | TRANS_ALL.

(** Modelled from the spec: [pkg_state_t] is declared in xbps_api.h, which
    is not part of the sources at hand.  Section 3 of the specification
    gives the life cycle of an entry two values, NOT_UNPACKED and UNPACKED;
    install.c names only [XBPS_PKG_STATE_UNPACKED]. *)
Inductive pkg_state_t : Type :=
| XBPS_PKG_STATE_NOT_UNPACKED
| XBPS_PKG_STATE_UNPACKED.

Definition is_unpacked (s : pkg_state_t) : bool :=
  match s with
  | XBPS_PKG_STATE_UNPACKED => true
  | XBPS_PKG_STATE_NOT_UNPACKED => false
  end.

(** ** Dictionaries *)

(** A package dictionary, with the keys install.c reads.  The strings are
    read into uninitialised [const char *] locals, so they are taken to be
    present.  ["essential"], ["filename-size"] and ["installed_size"] are
    read into locals that hold a value already, which a missing key leaves
    in place: these keys are optional here.  [state] is [None] when
    [xbps_get_pkg_state_dictionary] cannot read a state. *)
Record pkg_dictionary : Type := mk_pkg {
  pkgname : string;
  version : string;
  essential : option bool;
  filename : string;
  repository : string;
  filename_size : option N;
  installed_size : option N;
  state : option pkg_state_t
}.

(** An element of the ["missing_deps"] array. *)
Record missing_dep : Type := mk_missing {
  md_pkgname : option string;
  md_version : option string
}.

(** The transaction dictionary returned by [xbps_get_pkg_props]. *)
Record trans_dictionary : Type := mk_dict {
  missing_deps : list missing_dep;
  origin : option string;
  packages : list pkg_dictionary
}.

(** [struct transaction].  [iter] is the packages array the iterator walks;
    a [NULL] string is [None]. *)
Record transaction : Type := mk_trans {
  dict : trans_dictionary;
  iter : list pkg_dictionary;
  originpkgname : option string;
  curpkgname : option string;
  type : trans_type;
  force : bool;
  update : bool
}.

(** ** Events and the environment *)

Inductive event : Type :=
| Ev_printf (s : string)
| Ev_humanize_number (bytes : Z) (r : option string)
| Ev_noyes (prompt : string) (answer : bool)
| Ev_check_pkg_file_hash (obj : pkg_dictionary) (repoloc : string) (rv : Z)
| Ev_find_pkg_installed (name : string) (r : option pkg_dictionary)
| Ev_find_new_pkg (name : string) (instpkg : pkg_dictionary) (rv : Z)
| Ev_prepare_pkg (name : string) (rv : Z)
| Ev_get_pkg_props (r : option trans_dictionary)
| Ev_sort_pkg_deps (rv : Z)
| Ev_prepare_regpkgdb_dict (ok : bool)
| Ev_prepare_repolist_data (rv : Z)
| Ev_remove_pkg (name ver : string) (keep_config : bool) (rv : Z)
| Ev_unpack_binary_pkg (obj : pkg_dictionary) (essential : bool) (rv : Z)
| Ev_register_pkg (obj : pkg_dictionary) (isdep : bool) (rv : Z)
| Ev_set_pkg_state (obj : pkg_dictionary) (st : pkg_state_t) (rv : Z)
| Ev_configure_pkg (name ver : string) (rv : Z)
| Ev_release_repolist_data
| Ev_release_regpkgdb_dict.

Definition trace : Type := list event.

(** What install.c calls and does not define.  [xbps_humanize_number] is
    [None] when the C function returns -1; an allocation ([calloc], the
    array iterator) answers [false] or [None] when it fails. *)
Record libxbps : Type := mk_libxbps {
  strerror : Z -> string;
  errno : trace -> Z;
  calloc : trace -> bool;
  xbps_humanize_number : Z -> option string;
  xbps_noyes : trace -> string -> bool;
  xbps_check_pkg_file_hash : trace -> pkg_dictionary -> string -> Z;
  xbps_find_pkg_installed_from_plist : trace -> string -> option pkg_dictionary;
  xbps_find_new_pkg : trace -> string -> pkg_dictionary -> Z;
  xbps_prepare_pkg : trace -> string -> Z;
  xbps_get_pkg_props : trace -> option trans_dictionary;
  xbps_get_array_iter_from_dict : trace -> list pkg_dictionary -> bool;
  xbps_sort_pkg_deps : trace -> trans_dictionary -> Z * trans_dictionary;
  xbps_prepare_regpkgdb_dict : trace -> option (list pkg_dictionary);
  xbps_prepare_repolist_data : trace -> Z;
  xbps_remove_pkg : trace -> string -> string -> bool -> Z;
  xbps_unpack_binary_pkg : trace -> pkg_dictionary -> bool -> Z;
  xbps_register_pkg : trace -> pkg_dictionary -> bool -> Z;
  xbps_set_pkg_state_dictionary : trace -> pkg_dictionary -> pkg_state_t -> Z;
  xbps_configure_pkg : trace -> string -> string -> Z
}.

(** ** A monad for C function bodies

    A computation reads and extends the trace.  It yields a value, or it
    leaves the enclosing C function: by a [return] of an [int], or because
    the behaviour is undefined (a [NULL] string given to [strcmp]). *)
Inductive outcome : Type :=
| Returned (rv : Z)
| Undefined.

Definition M (A : Type) : Type := trace -> (A + outcome) * trace.

Definition ret {A} (a : A) : M A := fun tr => (inl a, tr).

Definition bind {A B} (m : M A) (k : A -> M B) : M B :=
  fun tr =>
    match m tr with
    | (inl a, tr') => k a tr'
    | (inr o, tr') => (inr o, tr')
    end.

Definition return_ {A} (rv : Z) : M A := fun tr => (inr (Returned rv), tr).

Definition undefined {A} : M A := fun tr => (inr Undefined, tr).

Definition emit (e : event) : M unit := fun tr => (inl tt, (tr ++ [e])).

(** Ask the environment, and record the question with its answer. *)
Definition ask {A} (answer : trace -> A) (ev : A -> event) : M A :=
  fun tr => let a := answer tr in (inl a, (tr ++ [ev a])).

(** Read the environment without leaving an event ([errno], an
    allocation). *)
Definition read {A} (answer : trace -> A) : M A :=
  fun tr => (inl (answer tr), tr).

(** A call of a C function that returns an [int]. *)
Definition call (f : M Z) : M Z :=
  fun tr =>
    match f tr with
    | (inl rv, tr') => (inl rv, tr')
    | (inr (Returned rv), tr') => (inl rv, tr')
    | (inr Undefined, tr') => (inr Undefined, tr')
    end.

(** The result of a C function that returns an [int]. *)
Definition run (f : M Z) (tr : trace) : outcome * trace :=
  match f tr with
  | (inl rv, tr') => (Returned rv, tr')
  | (inr o, tr') => (o, tr')
  end.

Declare Scope tx_scope.
Delimit Scope tx_scope with tx.
Notation "x <- c ;; k" := (bind c (fun x => k))
  (at level 61, c at next level, right associativity) : tx_scope.
Notation "c ;;; k" := (bind c (fun _ => k))
  (at level 61, right associativity) : tx_scope.
Local Open Scope tx_scope.

(** ** libc and proplib helpers *)

Definition LF : string := String (ascii_of_nat 10) EmptyString.

Definition cat (l : list string) : string := String.concat EmptyString l.

Definition printf (l : list string) : M unit := emit (Ev_printf (cat l)).

(** [strcmp] on two strings; only its sign is defined by C. *)
Definition strcmp (a b : string) : Z :=
  match String.compare a b with
  | Eq => 0
  | Lt => -1
  | Gt => 1
  end.

(** [strcmp] whose first argument may be [NULL]. *)
Definition strcmp_ptr (a : option string) (b : string) : M Z :=
  match a with
  | None => undefined
  | Some a => ret (strcmp a b)
  end.

(** [prop_dictionary_get_bool] and [prop_dictionary_get_uint64] store the
    value of the key in the variable they are given, and leave the
    variable as it is when the dictionary has no such key. *)
Definition prop_dictionary_get_bool (key : option bool) (var : bool) : bool :=
  match key with
  | Some b => b
  | None => var
  end.

Definition prop_dictionary_get_uint64 (key : option N) (var : N) : N :=
  match key with
  | Some n => n
  | None => var
  end.

(** Modelled from the spec: [xbps_get_pkg_state_dictionary] belongs to
    libxbps.  It reads the life-cycle state the dictionary holds (section
    3); [None] stands for a return value other than zero. *)
Definition xbps_get_pkg_state_dictionary (obj : pkg_dictionary)
  : option pkg_state_t :=
  state obj.

(** Modelled from the spec: the effect of a successful
    [xbps_set_pkg_state_dictionary] on the dictionary (section 4.4:
    "persist lifecycle_state = UNPACKED for this entry"). *)
Definition set_state (obj : pkg_dictionary) (st : pkg_state_t) : pkg_dictionary :=
  {| pkgname := pkgname obj;
     version := version obj;
     essential := essential obj;
     filename := filename obj;
     repository := repository obj;
     filename_size := filename_size obj;
     installed_size := installed_size obj;
     state := Some st |}.

(** ** 64-bit arithmetic *)

Definition two64 : N := (2 ^ 64)%N.

(** [a += b] on [uint64_t]. *)
Definition u64_add (a b : N) : N := ((a + b) mod two64)%N.

(** [(int64_t)n] for [n] below [2^64]. *)
Definition to_int64 (n : N) : Z :=
  if (n <? 2 ^ 63)%N then Z.of_N n else Z.of_N n - 2 ^ 64.

Section WithLibxbps.

Variable X : libxbps.

(** ** [show_transaction_sizes] *)

(** The first loop: [dlsize] and [instsize], with [tsize] set back to zero
    after each use. *)
Fixpoint sum_sizes (objs : list pkg_dictionary) (dlsize instsize : N) : N * N :=
  match objs with
  | [] => (dlsize, instsize)
  | obj :: rest =>
      let tsize := prop_dictionary_get_uint64 (filename_size obj) 0%N in
      let dlsize := u64_add dlsize tsize in
      let tsize := prop_dictionary_get_uint64 (installed_size obj) 0%N in
      let instsize := u64_add instsize tsize in
      sum_sizes rest dlsize instsize
  end.

(** The second loop: the list of packages, wrapped at 80 columns.  [cols]
    is a [size_t]; it never exceeds 80 plus the length of one name and one
    version, so it is a [nat] here. *)
Fixpoint show_pkg_list (objs : list pkg_dictionary) (cols : nat) (first : bool)
  : M unit :=
  match objs with
  | [] => ret tt
  | obj :: rest =>
      let w := (String.length (pkgname obj) + String.length (version obj) + 4)%nat in
      let cols := (cols + w)%nat in
      st <- (if (cols <=? 80)%nat then
               if negb first then printf ["  "%string] ;;; ret (cols, true)
               else ret (cols, first)
             else
               printf [LF; "  "%string] ;;; ret (w, first)) ;;
      printf [pkgname obj; "-"%string; version obj; " "%string] ;;;
      show_pkg_list rest (fst st) (snd st)
  end.

Definition humanize (bytes : Z) : M (option string) :=
  ask (fun _ => xbps_humanize_number X bytes) (Ev_humanize_number bytes).

Definition show_transaction_sizes (it : list pkg_dictionary) (descr : string)
  : M Z :=
  let '(dlsize, instsize) := sum_sizes it 0%N 0%N in
  printf [LF; "The following new packages will be "%string; descr;
          ":"%string; LF; LF] ;;;
  show_pkg_list it 0%nat false ;;;
  printf [LF; LF] ;;;
  size <- humanize (to_int64 dlsize) ;;
  match size with
  | None =>
      e <- read (errno X) ;;
      printf ["error: humanize_number returns "%string; strerror X e; LF] ;;;
      return_ (-1)
  | Some size =>
      printf ["Total download size: "%string; size; LF] ;;;
      size <- humanize (to_int64 instsize) ;;
      match size with
      | None =>
          e <- read (errno X) ;;
          printf ["error: humanize_number2 returns "%string; strerror X e; LF] ;;;
          return_ (-1)
      | Some size =>
          printf ["Total installed size: "%string; size; LF; LF] ;;;
          ret 0
      end
  end.

(** ** [check_pkg_hashes] *)

Definition check_pkg_file_hash (obj : pkg_dictionary) (repoloc : string) : M Z :=
  ask (fun tr => xbps_check_pkg_file_hash X tr obj repoloc)
      (Ev_check_pkg_file_hash obj repoloc).

Fixpoint check_pkg_hashes_loop (objs : list pkg_dictionary) : M unit :=
  match objs with
  | [] => ret tt
  | obj :: rest =>
      match xbps_get_pkg_state_dictionary obj with
      | None => return_ EINVAL
      | Some st =>
          if is_unpacked st then check_pkg_hashes_loop rest
          else
            rv <- check_pkg_file_hash obj (repository obj) ;;
            if negb (rv =? 0) && negb (rv =? ERANGE) then
              printf ["Unexpected error while checking hash for "%string;
                      filename obj; " ("%string; strerror X rv; ")"%string; LF] ;;;
              return_ (-1)
            else if negb (rv =? 0) && (rv =? ERANGE) then
              printf ["Hash mismatch for "%string; filename obj;
                      ", exiting."%string; LF] ;;;
              return_ (-1)
            else check_pkg_hashes_loop rest
      end
  end.

Definition check_pkg_hashes (it : list pkg_dictionary) : M Z :=
  printf ["Checking binary package file(s) integrity..."%string; LF] ;;;
  check_pkg_hashes_loop it ;;;
  ret 0.

(** ** [exec_transaction] *)

Definition noyes (prompt : string) : M bool :=
  ask (fun tr => xbps_noyes X tr prompt) (Ev_noyes prompt).

Definition find_pkg_installed_from_plist (name : string)
  : M (option pkg_dictionary) :=
  ask (fun tr => xbps_find_pkg_installed_from_plist X tr name)
      (Ev_find_pkg_installed name).

Definition remove_pkg (name ver : string) (keep : bool) : M Z :=
  ask (fun tr => xbps_remove_pkg X tr name ver keep)
      (Ev_remove_pkg name ver keep).

Definition unpack_binary_pkg (obj : pkg_dictionary) (ess : bool) : M Z :=
  ask (fun tr => xbps_unpack_binary_pkg X tr obj ess)
      (Ev_unpack_binary_pkg obj ess).

Definition register_pkg (obj : pkg_dictionary) (isdep : bool) : M Z :=
  ask (fun tr => xbps_register_pkg X tr obj isdep)
      (Ev_register_pkg obj isdep).

Definition set_pkg_state_dictionary (obj : pkg_dictionary) (st : pkg_state_t)
  : M Z :=
  ask (fun tr => xbps_set_pkg_state_dictionary X tr obj st)
      (Ev_set_pkg_state obj st).

Definition configure_pkg (name ver : string) : M Z :=
  ask (fun tr => xbps_configure_pkg X tr name ver)
      (Ev_configure_pkg name ver).

(** The locals of [exec_transaction] that live across the iterations of
    its first loop.  The others are assigned in an iteration before they
    are read. *)
Record locals : Type := mk_locals {
  l_essential : bool;
  l_isdep : bool
}.

(** [(trans->type == TRANS_ONE) && strcmp(trans->originpkgname, pkgname)] *)
Definition is_dependency (T : transaction) (obj : pkg_dictionary) : M bool :=
  match type T with
  | TRANS_ONE =>
      c <- strcmp_ptr (originpkgname T) (pkgname obj) ;;
      ret (negb (c =? 0))
  | TRANS_ALL => ret false
  end.

(** [(trans->type == TRANS_ALL) ||
     (trans->update && strcmp(trans->curpkgname, pkgname) == 0)] *)
Definition replaces_installed (T : transaction) (obj : pkg_dictionary) : M bool :=
  match type T with
  | TRANS_ALL => ret true
  | TRANS_ONE =>
      if update T then
        c <- strcmp_ptr (curpkgname T) (pkgname obj) ;;
        ret (c =? 0)
      else ret false
  end.

(** One iteration of the first loop, lines 318-392.  It yields the locals
    and the dictionary as the iteration leaves them.  An iteration that
    returns has not stored a state in the dictionary. *)
Definition apply_entry (T : transaction) (l : locals) (obj : pkg_dictionary)
  : M (locals * pkg_dictionary) :=
  let ess := prop_dictionary_get_bool (essential obj) (l_essential l) in
  dep <- is_dependency T obj ;;
  let isdep := if dep then true else l_isdep l in
  match xbps_get_pkg_state_dictionary obj with
  | None => return_ EINVAL
  | Some st =>
      if is_unpacked st then ret (mk_locals ess isdep, obj)
      else
        repl <- replaces_installed T obj ;;
        (if repl then
           instpkgd <- find_pkg_installed_from_plist (pkgname obj) ;;
           match instpkgd with
           | None =>
               printf ["error: unable to find "%string; pkgname obj;
                       " installed dict!"%string; LF] ;;;
               return_ EINVAL
           | Some instpkgd =>
               let instver := version instpkgd in
               if negb ess then
                 rv <- remove_pkg (pkgname obj) (version obj) true ;;
                 if negb (rv =? 0) then
                   printf ["error: removing "%string; pkgname obj; "-"%string;
                           instver; " ("%string; strerror X rv; ")"%string; LF] ;;;
                   return_ rv
                 else ret tt
               else ret tt
           end
         else ret tt) ;;;
        printf ["Unpacking "%string; pkgname obj; "-"%string; version obj;
                " (from .../"%string; filename obj; ") ..."%string; LF] ;;;
        rv <- unpack_binary_pkg obj ess ;;
        if negb (rv =? 0) then
          printf ["error: unpacking "%string; pkgname obj; "-"%string;
                  version obj; " ("%string; strerror X rv; ")"%string; LF] ;;;
          return_ rv
        else
          rv <- register_pkg obj isdep ;;
          if negb (rv =? 0) then
            printf ["error: registering "%string; pkgname obj; "-"%string;
                    version obj; "! ("%string; strerror X rv; ")"%string; LF] ;;;
            return_ rv
          else
            rv <- set_pkg_state_dictionary obj XBPS_PKG_STATE_UNPACKED ;;
            if negb (rv =? 0) then return_ rv
            else ret (mk_locals ess false,
                      set_state obj XBPS_PKG_STATE_UNPACKED)
  end.

(** The first loop.  Besides the trace it yields the array as the loop
    leaves it: the dictionaries are shared with the array. *)
Fixpoint apply_loop (T : transaction) (l : locals) (objs : list pkg_dictionary)
  (tr : trace) : (locals + outcome) * list pkg_dictionary * trace :=
  match objs with
  | [] => (inl l, [], tr)
  | obj :: rest =>
      match apply_entry T l obj tr with
      | (inl (l', obj'), tr') =>
          let '(r, rest', tr'') := apply_loop T l' rest tr' in
          (r, obj' :: rest', tr'')
      | (inr o, tr') => (inr o, obj :: rest, tr')
      end
  end.

(** The second loop, lines 397-407. *)
Fixpoint configure_loop (objs : list pkg_dictionary) : M unit :=
  match objs with
  | [] => ret tt
  | obj :: rest =>
      printf ["Configuring package "%string; pkgname obj; "-"%string;
              version obj; " ..."%string; LF] ;;;
      rv <- configure_pkg (pkgname obj) (version obj) ;;
      if negb (rv =? 0) then
        printf ["Error configuring package "%string; pkgname obj;
                "-"%string; version obj; LF] ;;;
        return_ rv
      else configure_loop rest
  end.

(** [trans->type == TRANS_ALL ? "updated" : "installed"] *)
Definition transaction_descr (T : transaction) : string :=
  match type T with
  | TRANS_ALL => "updated"%string
  | TRANS_ONE => "installed"%string
  end.

(** Lines 302-307: ask interactively, if [-f] is not set. *)
Definition ask_to_continue (T : transaction) : M unit :=
  if negb (force T) then
    yes <- noyes "Do you want to continue?"%string ;;
    if negb yes then printf ["Aborting!"%string; LF] ;;; return_ 0
    else ret tt
  else ret tt.

(** Lines 290-313: the sizes, the question, the hashes. *)
Definition before_apply (T : transaction) : M unit :=
  rv <- call (show_transaction_sizes (iter T) (transaction_descr T)) ;;
  if negb (rv =? 0) then return_ rv
  else
    ask_to_continue T ;;;
    rv <- call (check_pkg_hashes (iter T)) ;;
    if negb (rv =? 0) then return_ rv else ret tt.

(** [exec_transaction]: its result, the packages array and the trace. *)
Definition exec_transaction (T : transaction) (tr : trace)
  : outcome * list pkg_dictionary * trace :=
  match before_apply T tr with
  | (inr o, tr1) => (o, iter T, tr1)
  | (inl _, tr1) =>
      match apply_loop T (mk_locals false false) (iter T) tr1 with
      | (inr o, objs, tr2) => (o, objs, tr2)
      | (inl _, objs, tr2) =>
          let '(o, tr3) := run (configure_loop objs ;;; ret 0) tr2 in
          (o, objs, tr3)
      end
  end.

(** ** [cleanup], [xbps_install_pkg] and [xbps_autoupdate_pkgs] *)

(** [exit(status)]: the process ends, and [status] is the result of the
    entry point. *)
Definition exit {A} (status : Z) : M A := return_ status.

Definition cleanup {A} (rv : Z) : M A :=
  emit Ev_release_repolist_data ;;;
  emit Ev_release_regpkgdb_dict ;;;
  exit (if rv =? 0 then EXIT_SUCCESS else EXIT_FAILURE).

Definition show_missing_dep_cb (obj : missing_dep) : M Z :=
  match md_pkgname obj, md_version obj with
  | Some name, Some ver =>
      printf ["  * Missing binary package for: "%string; name;
              " >= "%string; ver; LF] ;;;
      ret 0
  | _, _ => ret EINVAL
  end.

(** [xbps_callback_array_iter_in_dict] stops at the first callback that
    does not return zero. *)
Fixpoint callback_array_iter (objs : list missing_dep) : M Z :=
  match objs with
  | [] => ret 0
  | obj :: rest =>
      rv <- show_missing_dep_cb obj ;;
      if negb (rv =? 0) then ret rv else callback_array_iter rest
  end.

Definition show_missing_deps (d : trans_dictionary) (name : string) : M unit :=
  printf ["Unable to locate some required packages for "%string; name;
          ":"%string; LF] ;;;
  callback_array_iter (missing_deps d) ;;;
  ret tt.

Definition exec (T : transaction) : M Z :=
  fun tr =>
    match exec_transaction T tr with
    | (Returned rv, _, tr') => (inl rv, tr')
    | (Undefined, _, tr') => (inr Undefined, tr')
    end.

Definition xbps_install_pkg (pkg : string) (force update : bool) : M Z :=
  let rv := 0 in
  pkgd <- find_pkg_installed_from_plist pkg ;;
  rv <- (if update then
           match pkgd with
           | Some pkgd =>
               rv <- ask (fun tr => xbps_find_new_pkg X tr pkg pkgd)
                         (Ev_find_new_pkg pkg pkgd) ;;
               if rv =? 0 then
                 printf ["Package '"%string; pkg; "' is up to date."%string; LF] ;;;
                 cleanup rv
               else ret rv
           | None =>
               printf ["Package '"%string; pkg; "' not installed."%string; LF] ;;;
               cleanup rv
           end
         else
           match pkgd with
           | Some _ =>
               printf ["Package '"%string; pkg;
                       "' is already installed."%string; LF] ;;;
               cleanup rv
           | None =>
               rv <- ask (fun tr => xbps_prepare_pkg X tr pkg)
                         (Ev_prepare_pkg pkg) ;;
               if negb (rv =? 0) && (rv =? EAGAIN) then
                 printf ["unable to locate "%string; pkg;
                         " in repository pool."%string] ;;;
                 cleanup rv
               else if negb (rv =? 0) && negb (rv =? ENOENT) then
                 printf ["unexpected error: "%string; strerror X rv] ;;;
                 cleanup rv
               else ret rv
           end) ;;
  trans <- read (calloc X) ;;
  if negb trans then cleanup rv
  else
    d <- ask (xbps_get_pkg_props X) Ev_get_pkg_props ;;
    match d with
    | None =>
        printf ["error: unexistent props dictionary!"%string; LF] ;;;
        cleanup rv
    | Some d =>
        if (0 <? List.length (missing_deps d))%nat then
          show_missing_deps d pkg ;;; cleanup rv
        else
          it <- read (fun tr => xbps_get_array_iter_from_dict X tr (packages d)) ;;
          if negb it then
            e <- read (errno X) ;;
            printf ["error: allocating array mem! ("%string; strerror X e;
                    ")"%string] ;;;
            cleanup rv
          else
            rv <- exec {| dict := d;
                          iter := packages d;
                          originpkgname := origin d;
                          curpkgname := None;
                          type := TRANS_ONE;
                          force := force;
                          update := update |} ;;
            cleanup rv
    end.

(** The loop of [xbps_autoupdate_pkgs] over the installed packages; it
    yields the last value of [rv]. *)
Fixpoint find_new_pkgs (objs : list pkg_dictionary) (rv : Z) : M Z :=
  match objs with
  | [] => ret rv
  | obj :: rest =>
      rv <- ask (fun tr => xbps_find_new_pkg X tr (pkgname obj) obj)
                (Ev_find_new_pkg (pkgname obj) obj) ;;
      if negb (rv =? 0) then cleanup rv else find_new_pkgs rest rv
  end.

Definition xbps_autoupdate_pkgs (force : bool) : M Z :=
  let rv := 0 in
  regpkgs <- ask (xbps_prepare_regpkgdb_dict X)
                 (fun r => Ev_prepare_regpkgdb_dict
                             (match r with Some _ => true | None => false end)) ;;
  match regpkgs with
  | None =>
      e <- read (errno X) ;;
      printf ["No packages currently installed ("%string; strerror X e;
              ")."%string; LF] ;;;
      cleanup rv
  | Some regpkgs =>
      rv <- ask (xbps_prepare_repolist_data X) Ev_prepare_repolist_data ;;
      if negb (rv =? 0) then cleanup rv
      else
        trans <- read (calloc X) ;;
        if negb trans then cleanup rv
        else
          it <- read (fun tr => xbps_get_array_iter_from_dict X tr regpkgs) ;;
          if negb it then cleanup EINVAL
          else
            rv <- find_new_pkgs regpkgs rv ;;
            d <- ask (xbps_get_pkg_props X) Ev_get_pkg_props ;;
            match d with
            | None =>
                e <- read (errno X) ;;
                if e =? 0 then
                  printf ["All packages are up-to-date."%string; LF] ;;;
                  cleanup rv
                else
                  printf ["Error while checking for new pkgs: "%string;
                          strerror X e; LF] ;;;
                  cleanup rv
            | Some d =>
                sorted <- ask (fun tr => xbps_sort_pkg_deps X tr d)
                              (fun r => Ev_sort_pkg_deps (fst r)) ;;
                let rv := fst sorted in
                let d := snd sorted in
                if negb (rv =? 0) then
                  printf ["Error while sorting packages: "%string;
                          strerror X rv; LF] ;;;
                  cleanup rv
                else
                  it <- read (fun tr => xbps_get_array_iter_from_dict X tr (packages d)) ;;
                  if negb it then
                    e <- read (errno X) ;;
                    printf ["error: allocating array mem! ("%string;
                            strerror X e; ")"%string; LF] ;;;
                    cleanup rv
                  else
                    rv <- exec {| dict := d;
                                  iter := packages d;
                                  originpkgname := None;
                                  curpkgname := None;
                                  type := TRANS_ALL;
                                  force := force;
                                  update := true |} ;;
                    cleanup rv
            end
  end.

End WithLibxbps.

(** ** Reading a trace *)

Definition is_printf (e : event) : bool :=
  match e with Ev_printf _ => true | _ => false end.

(** The calls of a trace: everything but the output. *)
Definition calls (tr : trace) : trace := filter (fun e => negb (is_printf e)) tr.

(** The events of the five phases of [exec_transaction].  Output belongs
    to every phase. *)
Definition is_summary_event (e : event) : bool :=
  match e with Ev_printf _ | Ev_humanize_number _ _ => true | _ => false end.

Definition is_confirm_event (e : event) : bool :=
  match e with Ev_printf _ | Ev_noyes _ _ => true | _ => false end.

Definition is_hash_event (e : event) : bool :=
  match e with Ev_printf _ | Ev_check_pkg_file_hash _ _ _ => true | _ => false end.

Definition is_apply_event (e : event) : bool :=
  match e with
  | Ev_printf _ | Ev_find_pkg_installed _ _ | Ev_remove_pkg _ _ _ _
  | Ev_unpack_binary_pkg _ _ _ | Ev_register_pkg _ _ _
  | Ev_set_pkg_state _ _ _ => true
  | _ => false
  end.

Definition is_configure_event (e : event) : bool :=
  match e with Ev_printf _ | Ev_configure_pkg _ _ _ => true | _ => false end.

(** The events of lines 290-313. *)
Definition is_before_apply_event (e : event) : bool :=
  is_summary_event e || is_confirm_event e || is_hash_event e.

(** The calls that change the installed system or the transaction. *)
Definition is_mutation (e : event) : bool :=
  match e with
  | Ev_remove_pkg _ _ _ _ | Ev_unpack_binary_pkg _ _ _ | Ev_register_pkg _ _ _
  | Ev_set_pkg_state _ _ _ | Ev_configure_pkg _ _ _ => true
  | _ => false
  end.

(** A remove, unpack, register or state step that did not return zero. *)
Definition failed_step (e : event) : bool :=
  match e with
  | Ev_remove_pkg _ _ _ rv | Ev_unpack_binary_pkg _ _ rv
  | Ev_register_pkg _ _ rv | Ev_set_pkg_state _ _ rv => negb (rv =? 0)
  | _ => false
  end.

Definition is_hash_check (e : event) : bool :=
  match e with Ev_check_pkg_file_hash _ _ _ => true | _ => false end.


Definition is_noyes (e : event) : bool :=
  match e with Ev_noyes _ _ => true | _ => false end.

(** Events that are neither the question, nor a hash check, nor a call
    that changes the system. *)
Definition quiet (e : event) : bool :=
  negb (is_noyes e) && negb (is_hash_check e) && negb (is_mutation e).

(** The observations of one kind in a trace, in order. *)
Definition collect {A} (f : event -> option A) (tr : trace) : list A :=
  flat_map (fun e => match f e with Some a => [a] | None => [] end) tr.

(** The sizes given to [xbps_humanize_number]. *)
Definition humanized : trace -> list Z :=
  collect (fun e =>
    match e with
    | Ev_humanize_number bytes _ => Some bytes
    | _ => None
    end).

(** The dictionaries whose hash was checked, with the answers. *)
Definition hash_checks : trace -> list (pkg_dictionary * Z) :=
  collect (fun e =>
    match e with
    | Ev_check_pkg_file_hash obj _ rv => Some (obj, rv)
    | _ => None
    end).


(** The registrations, with the value of [isdep] given to each. *)
Definition registrations : trace -> list (pkg_dictionary * bool) :=
  collect (fun e =>
    match e with
    | Ev_register_pkg obj isdep _ => Some (obj, isdep)
    | _ => None
    end).

(** The names registered, each with its flag. *)
Definition registered_names (tr : trace) : list (string * bool) :=
  map (fun r => (pkgname (fst r), snd r)) (registrations tr).

(** The calls of [xbps_configure_pkg]: name, version and answer. *)
Definition configure_calls : trace -> list (string * string * Z) :=
  collect (fun e =>
    match e with
    | Ev_configure_pkg name ver rv => Some (name, ver, rv)
    | _ => None
    end).

(** The calls of [xbps_configure_pkg] that answer zero, for a list of
    names and versions. *)
Definition configured_ok (nvs : list (string * string))
  : list (string * string * Z) :=
  map (fun nv => (nv, 0)) nvs.

Definition name_version (obj : pkg_dictionary) : string * string :=
  (pkgname obj, version obj).

Definition unpacked (obj : pkg_dictionary) : bool :=
  match state obj with
  | Some XBPS_PKG_STATE_UNPACKED => true
  | _ => false
  end.

Definition not_unpacked (obj : pkg_dictionary) : bool := negb (unpacked obj).

(** The entry an event is about. *)
Definition about (obj : pkg_dictionary) (e : event) : Prop :=
  match e with
  | Ev_find_pkg_installed name _ => name = pkgname obj
  | Ev_remove_pkg name ver _ _ => name = pkgname obj /\ ver = version obj
  | Ev_unpack_binary_pkg o _ _ | Ev_register_pkg o _ _
  | Ev_set_pkg_state o _ _ => o = obj
  | _ => True
  end.

(** The value of [essential] an event was called with, if it shows one:
    a removal is only called when [essential] is false. *)
Definition essential_in (ess : bool) (e : event) : Prop :=
  match e with
  | Ev_remove_pkg _ _ _ _ => ess = false
  | Ev_unpack_binary_pkg _ b _ => b = ess
  | _ => True
  end.

(** The question was asked and the answer was no. *)
Definition declined (d : trace) : Prop := exists p, In (Ev_noyes p false) d.

(** Nothing was checked and nothing was changed. *)
Definition untouched (d : trace) : Prop :=
  hash_checks d = [] /\ Forall (fun e => is_mutation e = false) d.

(** ** Specifications of computations *)

(** A computation [m] only adds events that satisfy [P]. *)
Definition emits {A} (P : event -> Prop) (m : M A) : Prop :=
  forall tr, exists d, snd (m tr) = (tr ++ d) /\ Forall P d.

(** An entry point leaves with [EXIT_SUCCESS], without a hash check or a
    change, in case the user declined. *)
Definition exits_ok_if_declined (m : M Z) : Prop :=
  forall tr, exists r d,
    m tr = (r, tr ++ d) /\
    (declined d -> r = inr (Returned EXIT_SUCCESS) /\ untouched d).

(** The value of [(trans->type == TRANS_ONE) && strcmp(trans->originpkgname,
    pkgname)] when [originpkgname] is a string. *)
Definition dep_flag (T : transaction) (obj : pkg_dictionary) : bool :=
  match type T, originpkgname T with
  | TRANS_ONE, Some o => negb (strcmp o (pkgname obj) =? 0)
  | _, _ => false
  end.

(** ** The runs of [exec_transaction]

    The five ways [exec_transaction] can go, each with the events it
    adds: [d1] by the summary, [d2] by the question, [d3] by the hash
    check, [d4] by the first loop and [d5] by the second. *)
Inductive exec_path (X : libxbps) (T : transaction) (tr : trace)
  : outcome * list pkg_dictionary * trace -> Prop :=
| path_summary_failed o d1 :
    run (show_transaction_sizes X (iter T) (transaction_descr T)) tr
      = (o, tr ++ d1) ->
    o <> Returned 0 ->
    exec_path X T tr (o, iter T, tr ++ d1)
| path_not_confirmed o d1 d2 :
    run (show_transaction_sizes X (iter T) (transaction_descr T)) tr
      = (Returned 0, tr ++ d1) ->
    ask_to_continue X T (tr ++ d1) = (inr o, (tr ++ d1) ++ d2) ->
    exec_path X T tr (o, iter T, (tr ++ d1) ++ d2)
| path_hash_failed o d1 d2 d3 :
    run (show_transaction_sizes X (iter T) (transaction_descr T)) tr
      = (Returned 0, tr ++ d1) ->
    ask_to_continue X T (tr ++ d1) = (inl tt, (tr ++ d1) ++ d2) ->
    run (check_pkg_hashes X (iter T)) ((tr ++ d1) ++ d2)
      = (o, ((tr ++ d1) ++ d2) ++ d3) ->
    o <> Returned 0 ->
    exec_path X T tr (o, iter T, ((tr ++ d1) ++ d2) ++ d3)
| path_apply_failed o objs d1 d2 d3 d4 :
    run (show_transaction_sizes X (iter T) (transaction_descr T)) tr
      = (Returned 0, tr ++ d1) ->
    ask_to_continue X T (tr ++ d1) = (inl tt, (tr ++ d1) ++ d2) ->
    run (check_pkg_hashes X (iter T)) ((tr ++ d1) ++ d2)
      = (Returned 0, ((tr ++ d1) ++ d2) ++ d3) ->
    apply_loop X T (mk_locals false false) (iter T) (((tr ++ d1) ++ d2) ++ d3)
      = (inr o, objs, (((tr ++ d1) ++ d2) ++ d3) ++ d4) ->
    exec_path X T tr (o, objs, (((tr ++ d1) ++ d2) ++ d3) ++ d4)
| path_configured o l objs d1 d2 d3 d4 d5 :
    run (show_transaction_sizes X (iter T) (transaction_descr T)) tr
      = (Returned 0, tr ++ d1) ->
    ask_to_continue X T (tr ++ d1) = (inl tt, (tr ++ d1) ++ d2) ->
    run (check_pkg_hashes X (iter T)) ((tr ++ d1) ++ d2)
      = (Returned 0, ((tr ++ d1) ++ d2) ++ d3) ->
    apply_loop X T (mk_locals false false) (iter T) (((tr ++ d1) ++ d2) ++ d3)
      = (inl l, objs, (((tr ++ d1) ++ d2) ++ d3) ++ d4) ->
    run (configure_loop X objs ;;; ret 0) ((((tr ++ d1) ++ d2) ++ d3) ++ d4)
      = (o, ((((tr ++ d1) ++ d2) ++ d3) ++ d4) ++ d5) ->
    exec_path X T tr (o, objs, ((((tr ++ d1) ++ d2) ++ d3) ++ d4) ++ d5).

(** ** The words of the specification

    Definitions that follow the text of the specification, to be compared
    with what the code does. *)

(** "No entry's hash is verified after the summary is rendered or after
    the user is prompted": once a size has been formatted or the question
    asked, the trace holds no hash check. *)
Definition is_report_or_prompt (e : event) : bool :=
  match e with Ev_humanize_number _ _ | Ev_noyes _ _ => true | _ => false end.

Fixpoint spec_gate_runs_first (tr : trace) : bool :=
  match tr with
  | [] => true
  | e :: tr =>
      if is_report_or_prompt e then forallb (fun e => negb (is_hash_check e)) tr
      else spec_gate_runs_first tr
  end.

(** The is-dependency flag "applies only to the first non-origin entry
    encountered after the origin in raw iteration order": the flag is
    [true] for that entry and [false] for every other one. *)
Fixpoint spec_is_dependency_flags (origin : string) (after_origin used : bool)
  (names : list string) : list bool :=
  match names with
  | [] => []
  | name :: rest =>
      if String.eqb origin name then
        false :: spec_is_dependency_flags origin true used rest
      else if after_origin && negb used then
        true :: spec_is_dependency_flags origin after_origin true rest
      else
        false :: spec_is_dependency_flags origin after_origin used rest
  end.

(** The sizes of an entry as the first loop of [show_transaction_sizes]
    reads them: a missing key counts for nothing. *)
Definition artifact_size (obj : pkg_dictionary) : N :=
  prop_dictionary_get_uint64 (filename_size obj) 0%N.

Definition installed_bytes (obj : pkg_dictionary) : N :=
  prop_dictionary_get_uint64 (installed_size obj) 0%N.

(** "The sum over all entries", in unbounded arithmetic. *)
Definition spec_total_download_size (objs : list pkg_dictionary) : N :=
  fold_right N.add 0%N (map artifact_size objs).

Definition spec_total_installed_size (objs : list pkg_dictionary) : N :=
  fold_right N.add 0%N (map installed_bytes objs).

(** ** Environments, packages and transactions for the examples *)

(** An environment in which every step succeeds, but for the answers
    given as parameters: the answer to the question, the installed
    packages, the hash check, the unpacking and the transaction
    dictionary. *)
Definition example_env (yes : bool)
  (installed : string -> option pkg_dictionary)
  (hash unpack : pkg_dictionary -> Z)
  (props : option trans_dictionary) : libxbps :=
  {| strerror := fun _ => "error"%string;
     errno := fun _ => 0;
     calloc := fun _ => true;
     xbps_humanize_number := fun _ => Some "1K"%string;
     xbps_noyes := fun _ _ => yes;
     xbps_check_pkg_file_hash := fun _ obj _ => hash obj;
     xbps_find_pkg_installed_from_plist := fun _ name => installed name;
     xbps_find_new_pkg := fun _ _ _ => 1;
     xbps_prepare_pkg := fun _ _ => 0;
     xbps_get_pkg_props := fun _ => props;
     xbps_get_array_iter_from_dict := fun _ _ => true;
     xbps_sort_pkg_deps := fun _ d => (0, d);
     xbps_prepare_regpkgdb_dict := fun _ => None;
     xbps_prepare_repolist_data := fun _ => 0;
     xbps_remove_pkg := fun _ _ _ _ => 0;
     xbps_unpack_binary_pkg := fun _ obj _ => unpack obj;
     xbps_register_pkg := fun _ _ _ => 0;
     xbps_set_pkg_state_dictionary := fun _ _ _ => 0;
     xbps_configure_pkg := fun _ _ _ => 0 |}.

Definition always_ok (obj : pkg_dictionary) : Z := 0.

(** [xbps_unpack_binary_pkg] answers 5 for the package named [name]. *)
Definition unpack_fails_for (name : string) (obj : pkg_dictionary) : Z :=
  if String.eqb (pkgname obj) name then 5 else 0.

(** A hash check that reports a mismatch for the package named [name]. *)
Definition mismatch_for (name : string) (obj : pkg_dictionary) : Z :=
  if String.eqb (pkgname obj) name then ERANGE else 0.

Definition example_pkg (name : string) (ess : option bool)
  (st : pkg_state_t) : pkg_dictionary :=
  {| pkgname := name;
     version := "1.0"%string;
     essential := ess;
     filename := (name ++ "-1.0.xbps")%string;
     repository := "/repo"%string;
     filename_size := Some 10%N;
     installed_size := Some 20%N;
     state := Some st |}.

Definition foo : pkg_dictionary :=
  example_pkg "foo" (Some false) XBPS_PKG_STATE_NOT_UNPACKED.

Definition bar : pkg_dictionary :=
  example_pkg "bar" (Some false) XBPS_PKG_STATE_NOT_UNPACKED.

Definition baz : pkg_dictionary :=
  example_pkg "baz" (Some false) XBPS_PKG_STATE_NOT_UNPACKED.

Definition foo_unpacked : pkg_dictionary :=
  example_pkg "foo" (Some false) XBPS_PKG_STATE_UNPACKED.

Definition bar_unpacked : pkg_dictionary :=
  example_pkg "bar" (Some false) XBPS_PKG_STATE_UNPACKED.

Definition foo_essential : pkg_dictionary :=
  example_pkg "foo" (Some true) XBPS_PKG_STATE_NOT_UNPACKED.

(** A package dictionary without the ["essential"] key. *)
Definition plain_pkg : pkg_dictionary :=
  example_pkg "plain" None XBPS_PKG_STATE_NOT_UNPACKED.

(** A package whose file is [2^63] bytes long. *)
Definition huge_pkg : pkg_dictionary :=
  {| pkgname := "huge";
     version := "1.0";
     essential := None;
     filename := "huge-1.0.xbps";
     repository := "/repo";
     filename_size := Some (2 ^ 63)%N;
     installed_size := Some 20%N;
     state := Some XBPS_PKG_STATE_NOT_UNPACKED |}.

(** The installed version of "foo". *)
Definition old_foo : pkg_dictionary :=
  {| pkgname := "foo";
     version := "0.9";
     essential := Some true;
     filename := "foo-0.9.xbps";
     repository := "/repo";
     filename_size := Some 10%N;
     installed_size := Some 20%N;
     state := None |}.

Definition nothing_installed (name : string) : option pkg_dictionary := None.

Definition foo_installed (name : string) : option pkg_dictionary :=
  if String.eqb name "foo" then Some old_foo else None.

Definition everything_installed (name : string) : option pkg_dictionary :=
  Some old_foo.

(** The transaction dictionary for "foo" alone. *)
Definition foo_props : trans_dictionary :=
  {| missing_deps := []; origin := Some "foo"%string; packages := [foo] |}.

Definition all_ok_env : libxbps :=
  example_env true nothing_installed always_ok always_ok None.

(** "foo" is installed. *)
Definition foo_installed_env : libxbps :=
  example_env true foo_installed always_ok always_ok (Some foo_props).

(** Every package is installed. *)
Definition bulk_env : libxbps :=
  example_env true everything_installed always_ok always_ok None.

(** The user answers no. *)
Definition declining_env : libxbps :=
  example_env false nothing_installed always_ok always_ok (Some foo_props).

(** The unpacking of "bar" fails. *)
Definition bar_fails_env : libxbps :=
  example_env true nothing_installed always_ok (unpack_fails_for "bar") None.

(** A transaction of type [ty] for the origin "foo". *)
Definition example_trans (ty : trans_type) (objs : list pkg_dictionary)
  (force update : bool) (cur : option string) : transaction :=
  {| dict := {| missing_deps := []; origin := Some "foo"%string; packages := objs |};
     iter := objs;
     originpkgname := Some "foo"%string;
     curpkgname := cur;
     type := ty;
     force := force;
     update := update |}.

(** The origin "foo", then "bar" and "baz". *)
Definition three_pkgs_trans : transaction :=
  example_trans TRANS_ONE [foo; bar; baz] true false None.

(** "foo" was UNPACKED by an earlier run. *)
Definition resumed_trans : transaction :=
  example_trans TRANS_ONE [foo_unpacked; bar] true false None.

(** The dependency "bar" was UNPACKED by an earlier run; the origin "foo"
    comes after it. *)
Definition dep_unpacked_trans : transaction :=
  example_trans TRANS_ONE [bar_unpacked; foo] true false None.

(** "foo" alone, without [force]. *)
Definition confirm_trans : transaction :=
  example_trans TRANS_ONE [foo] false false None.


(** The transaction [xbps_install_pkg] builds for an update of "foo". *)
Definition update_trans : transaction :=
  {| dict := foo_props;
     iter := packages foo_props;
     originpkgname := origin foo_props;
     curpkgname := None;
     type := TRANS_ONE;
     force := true;
     update := true |}.

(** A transaction of type [TRANS_ALL]: an essential package, then one
    without the ["essential"] key. *)
Definition bulk_trans : transaction :=
  {| dict := {| missing_deps := []; origin := None;
                packages := [foo_essential; plain_pkg] |};
     iter := [foo_essential; plain_pkg];
     originpkgname := None;
     curpkgname := None;
     type := TRANS_ALL;
     force := true;
     update := true |}.

(** The traces of [three_pkgs_trans] in [bar_fails_env]: after lines
    290-313, after the iteration of "foo", and the events of the
    iteration of "bar". *)
Definition bar_fails_t0 : trace :=
  Eval vm_compute in snd (before_apply bar_fails_env three_pkgs_trans []).

Definition bar_fails_t1 : trace :=
  Eval vm_compute in
    snd (apply_loop bar_fails_env three_pkgs_trans (mk_locals false false)
           [foo] bar_fails_t0).

Definition bar_fails_dK : trace :=
  Eval vm_compute in
    skipn (List.length bar_fails_t1)
      (snd (apply_entry bar_fails_env three_pkgs_trans (mk_locals false false)
              bar bar_fails_t1)).

(** The traces of [resumed_trans]: after lines 290-313 and after the
    first loop. *)
Definition resumed_t0 : trace :=
  Eval vm_compute in snd (before_apply all_ok_env resumed_trans []).

Definition resumed_t1 : trace :=
  Eval vm_compute in
    snd (apply_loop all_ok_env resumed_trans (mk_locals false false)
           [foo_unpacked; bar] resumed_t0).

(** The trace of the summary of [confirm_trans]. *)
Definition declined_t1 : trace :=
  Eval vm_compute in
    snd (show_transaction_sizes declining_env [foo] "installed" []).

(** The iteration of [plain_pkg] after an essential package. *)
Definition plain_r : locals * pkg_dictionary + outcome :=
  Eval vm_compute in
    fst (apply_entry bulk_env bulk_trans (mk_locals true false) plain_pkg []).

Definition plain_d : trace :=
  Eval vm_compute in
    snd (apply_entry bulk_env bulk_trans (mk_locals true false) plain_pkg []).

(** ** What the first loop does to an entry *)

(** The only change the first loop makes to a dictionary: it stores the
    state UNPACKED in an entry that was not UNPACKED. *)
Definition state_step (o o' : pkg_dictionary) : Prop :=
  o' = o \/ (unpacked o = false /\ o' = set_state o XBPS_PKG_STATE_UNPACKED).

(** The value of [(trans->type == TRANS_ALL) || (trans->update &&
    strcmp(trans->curpkgname, pkgname) == 0)] when [curpkgname] is a
    string, or is not looked at. *)
Definition replaces_flag (T : transaction) (obj : pkg_dictionary) : bool :=
  match type T with
  | TRANS_ALL => true
  | TRANS_ONE =>
      update T &&
      match curpkgname T with
      | Some c => strcmp c (pkgname obj) =? 0
      | None => false
      end
  end.

(** The calls of [xbps_unpack_binary_pkg], with the value of [essential]
    given to each. *)
Definition unpackings : trace -> list (pkg_dictionary * bool) :=
  collect (fun e =>
    match e with
    | Ev_unpack_binary_pkg obj ess _ => Some (obj, ess)
    | _ => None
    end).

(** The calls of [xbps_set_pkg_state_dictionary]. *)
Definition state_changes : trace -> list (pkg_dictionary * pkg_state_t) :=
  collect (fun e =>
    match e with
    | Ev_set_pkg_state obj st _ => Some (obj, st)
    | _ => None
    end).

(** The trace of the first loop over "foo", "bar" and "baz" when every
    step succeeds. *)
Definition three_pkgs_applied : trace :=
  Eval vm_compute in
    snd (apply_loop all_ok_env three_pkgs_trans (mk_locals false false)
           [foo; bar; baz] []).

(** ** Further environments *)

(** An environment in which [xbps_humanize_number] fails. *)
Definition no_formatter_env : libxbps :=
  {| strerror := strerror all_ok_env;
     errno := errno all_ok_env;
     calloc := calloc all_ok_env;
     xbps_humanize_number := fun _ => None;
     xbps_noyes := xbps_noyes all_ok_env;
     xbps_check_pkg_file_hash := xbps_check_pkg_file_hash all_ok_env;
     xbps_find_pkg_installed_from_plist :=
       xbps_find_pkg_installed_from_plist all_ok_env;
     xbps_find_new_pkg := xbps_find_new_pkg all_ok_env;
     xbps_prepare_pkg := xbps_prepare_pkg all_ok_env;
     xbps_get_pkg_props := xbps_get_pkg_props all_ok_env;
     xbps_get_array_iter_from_dict := xbps_get_array_iter_from_dict all_ok_env;
     xbps_sort_pkg_deps := xbps_sort_pkg_deps all_ok_env;
     xbps_prepare_regpkgdb_dict := xbps_prepare_regpkgdb_dict all_ok_env;
     xbps_prepare_repolist_data := xbps_prepare_repolist_data all_ok_env;
     xbps_remove_pkg := xbps_remove_pkg all_ok_env;
     xbps_unpack_binary_pkg := xbps_unpack_binary_pkg all_ok_env;
     xbps_register_pkg := xbps_register_pkg all_ok_env;
     xbps_set_pkg_state_dictionary := xbps_set_pkg_state_dictionary all_ok_env;
     xbps_configure_pkg := xbps_configure_pkg all_ok_env |}.

(** "foo", then an entry whose state cannot be read. *)
Definition unreadable_trans : transaction :=
  example_trans TRANS_ONE [foo; old_foo] true false None.

Definition unreadable_d : trace :=
  Eval vm_compute in snd (exec_transaction all_ok_env unreadable_trans []).

Definition three_pkgs_d : trace :=
  Eval vm_compute in snd (exec_transaction all_ok_env three_pkgs_trans []).

Definition no_formatter_d : trace :=
  Eval vm_compute in snd (exec_transaction no_formatter_env three_pkgs_trans []).

(** A call of [xbps_humanize_number] that failed. *)
Definition formatter_failed (e : event) : bool :=
  match e with Ev_humanize_number _ None => true | _ => false end.

(** ** The text on the terminal *)

(** The strings given to [printf], in order. *)
Definition printed : trace -> list string :=
  collect (fun e => match e with Ev_printf s => Some s | _ => None end).

Definition is_LF (c : ascii) : bool := Ascii.eqb c (ascii_of_nat 10).

(** The column of the cursor after [s] is written from column [c]. *)
Fixpoint cursor (c : nat) (s : string) : nat :=
  match s with
  | EmptyString => c
  | String a s' => if is_LF a then cursor 0 s' else cursor (S c) s'
  end.

(** No character of [s], written from column [c], lands beyond column
    [n]. *)
Fixpoint within (n c : nat) (s : string) : bool :=
  match s with
  | EmptyString => true
  | String a s' =>
      if is_LF a then within n 0 s'
      else (S c <=? n)%nat && within n (S c) s'
  end.

(** The same for strings written one after the other. *)
Fixpoint within_all (n c : nat) (l : list string) : bool :=
  match l with
  | [] => true
  | s :: l' => within n c s && within_all n (cursor c s) l'
  end.

(** The width [show_transaction_sizes] counts for an entry. *)
Definition entry_width (obj : pkg_dictionary) : nat :=
  String.length (pkgname obj) + String.length (version obj) + 4.

(** Nine packages, ten columns each by that count. *)
Definition nine_pkgs : list pkg_dictionary :=
  [foo; bar; baz; foo; bar; baz; foo; bar; baz].

Definition nine_pkgs_listing : trace :=
  Eval vm_compute in snd (show_pkg_list nine_pkgs 0 false []).

(** ** The monad only ever extends the trace *)

Section Emits.

Context {P : event -> Prop}.

Lemma emits_ret {A} (a : A) : emits P (ret a).
Proof. intros tr; exists []; rewrite app_nil_r; auto. Qed.

Lemma emits_return {A} rv : emits P (@return_ A rv).
Proof. intros tr; exists []; rewrite app_nil_r; auto. Qed.

Lemma emits_undefined {A} : emits P (@undefined A).
Proof. intros tr; exists []; rewrite app_nil_r; auto. Qed.

Lemma emits_read {A} (f : trace -> A) : emits P (read f).
Proof. intros tr; exists []; rewrite app_nil_r; auto. Qed.

Lemma emits_emit e : P e -> emits P (emit e).
Proof. intros He tr; exists [e]; auto. Qed.

Lemma emits_printf l : P (Ev_printf (cat l)) -> emits P (printf l).
Proof. apply emits_emit. Qed.

Lemma emits_ask {A} (f : trace -> A) ev :
  (forall a, P (ev a)) -> emits P (ask f ev).
Proof. intros He tr; exists [ev (f tr)]; auto. Qed.

Lemma emits_bind {A B} (m : M A) (k : A -> M B) :
  emits P m -> (forall a, emits P (k a)) -> emits P (bind m k).
Proof.
  intros Hm Hk tr. unfold bind.
  destruct (Hm tr) as (d1 & E1 & F1).
  destruct (m tr) as [[a | o] tr1]; simpl in E1; subst tr1.
  - destruct (Hk a (tr ++ d1)) as (d2 & E2 & F2).
    exists (d1 ++ d2). rewrite E2, app_assoc. split; auto.
    apply Forall_app; auto.
  - exists d1; auto.
Qed.

Lemma emits_call (f : M Z) : emits P f -> emits P (call f).
Proof.
  intros Hf tr. unfold call.
  destruct (Hf tr) as (d & E & F).
  destruct (f tr) as [[rv | [rv |]] tr1]; simpl in *; eauto.
Qed.

End Emits.

Lemma emits_weaken {A} (P Q : event -> Prop) (m : M A) :
  (forall e, P e -> Q e) -> emits P m -> emits Q m.
Proof.
  intros HPQ Hm tr. destruct (Hm tr) as (d & E & F).
  exists d; split; auto. eapply Forall_impl; eauto.
Qed.

Lemma collect_app {A} (f : event -> option A) d1 d2 :
  collect f (d1 ++ d2) = collect f d1 ++ collect f d2.
Proof. apply flat_map_app. Qed.

Lemma collect_nil {A} (f : event -> option A) d :
  Forall (fun e => f e = None) d -> collect f d = [].
Proof.
  induction 1 as [| e d He _ IH]; simpl; auto.
  rewrite He. exact IH.
Qed.

(** Events of one kind hold no observation of another kind. *)
Lemma collect_kind {A} (P : event -> bool) (f : event -> option A) d :
  (forall e, P e = true -> f e = None) ->
  Forall (fun e => P e = true) d -> collect f d = [].
Proof.
  intros HP F. apply collect_nil. eapply Forall_impl; [| exact F].
  intros e; apply HP.
Qed.

Lemma Forall_kind (P Q : event -> bool) b d :
  (forall e, P e = true -> Q e = b) ->
  Forall (fun e => P e = true) d -> Forall (fun e => Q e = b) d.
Proof. intros HP F. eapply Forall_impl; [| exact F]. intros e; apply HP. Qed.

Ltac by_kind :=
  let H := fresh in
  intros [] H; cbv in H; try discriminate H; cbv; congruence.

(** Walks through a computation, one [bind] at a time. *)
Ltac emits_step :=
  match goal with
  | |- emits _ (bind _ _) => apply emits_bind; [| intros ?]
  | |- emits _ (ret _) => apply emits_ret
  | |- emits _ (return_ _) => apply emits_return
  | |- emits _ undefined => apply emits_undefined
  | |- emits _ (read _) => apply emits_read
  | |- emits _ (printf _) => apply emits_printf
  | |- emits _ (emit _) => apply emits_emit
  | |- emits _ (ask _ _) => apply emits_ask; intros ?
  | |- emits _ (call _) => apply emits_call
  | |- emits _ (if ?b then _ else _) => destruct b eqn:?
  | |- emits _ (match ?x with _ => _ end) => destruct x eqn:?
  end.

Ltac emits_auto := auto; repeat (emits_step; simpl; auto).

(** ** Which events each phase adds *)

Section Phases.

Variable X : libxbps.

Lemma show_pkg_list_emits objs :
  forall cols first,
    emits (fun e => is_summary_event e = true) (show_pkg_list objs cols first).
Proof.
  induction objs as [| obj rest IH]; intros cols first; simpl.
  - apply emits_ret.
  - emits_auto.
Qed.

Lemma show_transaction_sizes_emits it descr :
  emits (fun e => is_summary_event e = true) (show_transaction_sizes X it descr).
Proof.
  unfold show_transaction_sizes, humanize.
  destruct (sum_sizes it 0 0) as [dlsize instsize].
  pose proof (show_pkg_list_emits it 0 false).
  emits_auto.
Qed.

Lemma check_pkg_hashes_loop_emits objs :
  emits (fun e => is_hash_event e = true) (check_pkg_hashes_loop X objs).
Proof.
  induction objs as [| obj rest IH]; simpl.
  - apply emits_ret.
  - unfold check_pkg_file_hash. emits_auto.
Qed.

Lemma check_pkg_hashes_emits it :
  emits (fun e => is_hash_event e = true) (check_pkg_hashes X it).
Proof.
  unfold check_pkg_hashes. pose proof (check_pkg_hashes_loop_emits it).
  emits_auto.
Qed.

Lemma strcmp_ptr_emits P a b : emits P (strcmp_ptr a b).
Proof. unfold strcmp_ptr; emits_auto. Qed.

Lemma is_dependency_emits P T obj : emits P (is_dependency T obj).
Proof.
  unfold is_dependency. pose proof (strcmp_ptr_emits P).
  emits_auto.
Qed.

Lemma replaces_installed_emits P T obj : emits P (replaces_installed T obj).
Proof.
  unfold replaces_installed. pose proof (strcmp_ptr_emits P).
  emits_auto.
Qed.

Lemma apply_entry_emits T l obj :
  emits (fun e => is_apply_event e = true) (apply_entry X T l obj).
Proof.
  unfold apply_entry, find_pkg_installed_from_plist, remove_pkg,
    unpack_binary_pkg, register_pkg, set_pkg_state_dictionary.
  pose proof (is_dependency_emits (fun e => is_apply_event e = true) T obj).
  pose proof (replaces_installed_emits (fun e => is_apply_event e = true) T obj).
  emits_auto.
Qed.

Lemma configure_loop_emits objs :
  emits (fun e => is_configure_event e = true) (configure_loop X objs).
Proof.
  induction objs as [| obj rest IH]; simpl.
  - apply emits_ret.
  - unfold configure_pkg. emits_auto.
Qed.

End Phases.

(** ** The phases of [exec_transaction] *)

Lemma emits_inv {A} (P : event -> Prop) (m : M A) tr r d :
  emits P m -> m tr = (r, (tr ++ d)) -> Forall P d.
Proof.
  intros Hm E. destruct (Hm tr) as (d' & E' & F).
  rewrite E in E'. simpl in E'. apply app_inv_head in E'. subst; auto.
Qed.

Lemma emits_run_inv (P : event -> Prop) (f : M Z) tr o d :
  emits P f -> run f tr = (o, (tr ++ d)) -> Forall P d.
Proof.
  intros Hf E. destruct (Hf tr) as (d' & E' & F).
  unfold run in E. destruct (f tr) as [[rv | o'] tr']; simpl in E';
    inversion E; subst;
    match goal with H : (_ ++ _ = _ ++ _) |- _ =>
      apply app_inv_head in H; subst; auto end.
Qed.

Lemma emits_extends {A} (P : event -> Prop) (m : M A) tr :
  emits P m -> exists d, m tr = (fst (m tr), (tr ++ d)).
Proof.
  intros Hm. destruct (Hm tr) as (d & E & _). exists d.
  destruct (m tr); simpl in *; subst; reflexivity.
Qed.

Section Exec.

Variable X : libxbps.

Lemma ask_to_continue_emits T :
  emits (fun e => is_confirm_event e = true) (ask_to_continue X T).
Proof. unfold ask_to_continue, noyes. emits_auto. Qed.

(** The first loop adds only what its iterations add. *)
Lemma apply_loop_emits (P : event -> Prop) T objs :
  (forall l obj, In obj objs -> emits P (apply_entry X T l obj)) ->
  forall l tr, exists d,
    snd (apply_loop X T l objs tr) = (tr ++ d) /\ Forall P d.
Proof.
  induction objs as [| obj rest IH]; intros Hstep l tr; simpl.
  - exists []. rewrite app_nil_r. auto.
  - destruct (Hstep l obj (or_introl eq_refl) tr) as (d1 & E1 & F1).
    destruct (apply_entry X T l obj tr) as [[[l' obj'] | o] tr1];
      simpl in E1; subst tr1.
    + destruct (IH (fun l0 o0 H => Hstep l0 o0 (or_intror H)) l' (tr ++ d1))
        as (d2 & E2 & F2).
      destruct (apply_loop X T l' rest (tr ++ d1)) as [[r rest'] tr2].
      simpl in *; subst tr2. exists (d1 ++ d2).
      rewrite app_assoc. split; auto. apply Forall_app; auto.
    + exists d1; auto.
Qed.

Lemma apply_loop_inv (P : event -> Prop) T objs l tr r objs' d :
  (forall l obj, In obj objs -> emits P (apply_entry X T l obj)) ->
  apply_loop X T l objs tr = (r, objs', (tr ++ d)) -> Forall P d.
Proof.
  intros Hstep E. destruct (apply_loop_emits P T objs Hstep l tr) as (d' & E' & F).
  rewrite E in E'. simpl in E'. apply app_inv_head in E'. subst; auto.
Qed.

Lemma configure_emits objs :
  emits (fun e => is_configure_event e = true)
    (configure_loop X objs ;;; ret 0).
Proof. pose proof (configure_loop_emits X objs). emits_auto. Qed.

(** [exec_transaction] goes one of the five ways. *)
Lemma exec_transaction_path T tr : exec_path X T tr (exec_transaction X T tr).
Proof.
  unfold exec_transaction, before_apply.
  unfold bind at 1, call at 1.
  destruct (emits_extends _ _ tr
              (show_transaction_sizes_emits X (iter T) (transaction_descr T)))
    as (d1 & E1).
  assert (R1 : run (show_transaction_sizes X (iter T) (transaction_descr T)) tr
               = (match fst (show_transaction_sizes X (iter T) (transaction_descr T) tr)
                  with inl rv => Returned rv | inr o => o end, tr ++ d1)).
  { unfold run. rewrite E1. simpl. destruct (fst _); reflexivity. }
  rewrite E1.
  destruct (fst (show_transaction_sizes X (iter T) (transaction_descr T) tr))
    as [rv | [rv |]].
  3: { apply path_summary_failed; [exact R1 | discriminate]. }
  all: destruct (Z.eqb_spec rv 0) as [-> | Hrv]; simpl;
    [| apply path_summary_failed; [exact R1 | congruence]].
  all: unfold bind at 1.
  all: destruct (emits_extends _ _ (tr ++ d1) (ask_to_continue_emits T))
    as (d2 & E2).
  all: rewrite E2.
  all: destruct (fst (ask_to_continue X T (tr ++ d1))) as [[] | o2];
    [| eapply path_not_confirmed; eassumption].
  all: unfold bind at 1, call at 1.
  all: destruct (emits_extends _ _ ((tr ++ d1) ++ d2)
                   (check_pkg_hashes_emits X (iter T))) as (d3 & E3).
  all: assert (R3 : run (check_pkg_hashes X (iter T)) ((tr ++ d1) ++ d2)
               = (match fst (check_pkg_hashes X (iter T) ((tr ++ d1) ++ d2))
                  with inl rv => Returned rv | inr o => o end,
                  ((tr ++ d1) ++ d2) ++ d3))
    by (unfold run; rewrite E3; simpl; destruct (fst _); reflexivity).
  all: rewrite E3.
  all: destruct (fst (check_pkg_hashes X (iter T) ((tr ++ d1) ++ d2)))
    as [rv | [rv |]];
    [| | eapply path_hash_failed; [eassumption .. | discriminate]].
  all: destruct (Z.eqb_spec rv 0) as [-> | Hrv]; simpl;
    [| eapply path_hash_failed; [eassumption .. | congruence]].
  all: destruct (apply_loop_emits (fun _ => True) T (iter T)
                   (fun l obj _ =>
                      emits_weaken _ _ _ (fun _ _ => I) (apply_entry_emits X T l obj))
                   (mk_locals false false) (((tr ++ d1) ++ d2) ++ d3))
    as (d4 & E4 & _).
  all: destruct (apply_loop X T _ (iter T) _) as [[r4 objs] tr4] eqn:A4.
  all: simpl in E4; subst tr4.
  all: destruct r4 as [l | o4]; [| eapply path_apply_failed; eassumption].
  all: destruct (emits_extends _ _ ((((tr ++ d1) ++ d2) ++ d3) ++ d4)
                   (configure_emits objs)) as (d5 & E5).
  all: assert (R5 : run (configure_loop X objs ;;; ret 0)
                      ((((tr ++ d1) ++ d2) ++ d3) ++ d4)
               = (match fst ((configure_loop X objs ;;; ret 0)
                               ((((tr ++ d1) ++ d2) ++ d3) ++ d4))
                  with inl rv => Returned rv | inr o => o end,
                  ((((tr ++ d1) ++ d2) ++ d3) ++ d4) ++ d5))
    by (unfold run; rewrite E5; simpl; destruct (fst _); reflexivity).
  all: rewrite R5.
  all: eapply path_configured; eassumption.
Qed.

End Exec.

(** ** C1: the order of the phases *)

(** C1, as stated, fails: with [force] false and one package to install,
    [exec_transaction] formats the sizes and asks the question before it
    checks the hash of the package. *)
Lemma C1_hash_checked_after_summary_and_prompt :
  calls (snd (exec_transaction
                all_ok_env
                (example_trans TRANS_ONE [foo] false false None) []))
  = [ Ev_humanize_number 10 (Some "1K"%string);
      Ev_humanize_number 20 (Some "1K"%string);
      Ev_noyes "Do you want to continue?" true;
      Ev_check_pkg_file_hash foo "/repo" 0;
      Ev_unpack_binary_pkg foo false 0;
      Ev_register_pkg foo false 0;
      Ev_set_pkg_state foo XBPS_PKG_STATE_UNPACKED 0;
      Ev_configure_pkg "foo" "1.0" 0 ]
  /\ spec_gate_runs_first
       (snd (exec_transaction
               all_ok_env
               (example_trans TRANS_ONE [foo] false false None) []))
     = false.
Proof. split; reflexivity. Qed.

(** C1, amended: whatever the environment answers, the events of
    [exec_transaction] come in five consecutive runs: the summary
    (output and size formatting), the confirmation (empty when [force] is
    set), the hash checks, the first loop (look-up, remove, unpack,
    register, state), and the configuration. *)
Theorem C1_phases_in_order (X : libxbps) (T : transaction) (tr : trace) :
  exists d1 d2 d3 d4 d5,
    snd (exec_transaction X T tr) = (tr ++ d1 ++ d2 ++ d3 ++ d4 ++ d5) /\
    Forall (fun e => is_summary_event e = true) d1 /\
    Forall (fun e => is_confirm_event e = true) d2 /\
    (force T = true -> d2 = []) /\
    Forall (fun e => is_hash_event e = true) d3 /\
    Forall (fun e => is_apply_event e = true) d4 /\
    Forall (fun e => is_configure_event e = true) d5.
Proof.
  pose proof (show_transaction_sizes_emits X (iter T) (transaction_descr T)) as S.
  pose proof (ask_to_continue_emits X T) as A.
  pose proof (check_pkg_hashes_emits X (iter T)) as H.
  pose proof (fun l obj (_ : In obj (iter T)) => apply_entry_emits X T l obj) as L.
  assert (Hf : forall t d o, force T = true ->
            ask_to_continue X T t = (o, t ++ d) -> d = []).
  { intros t d o Hf E. unfold ask_to_continue in E. rewrite Hf in E.
    inversion E as [[E1 E2]].
    rewrite <- (app_nil_r t) in E2 at 1. apply app_inv_head in E2. auto. }
  destruct (exec_transaction_path X T tr)
    as [o d1 R1 _ | o d1 d2 R1 R2 | o d1 d2 d3 R1 R2 R3 _
        | o objs d1 d2 d3 d4 R1 R2 R3 R4 | o l objs d1 d2 d3 d4 d5 R1 R2 R3 R4 R5].
  - exists d1, [], [], [], []. rewrite !app_nil_r. simpl.
    pose proof (emits_run_inv _ _ _ _ _ S R1). auto 10.
  - exists d1, d2, [], [], []. rewrite !app_nil_r, <- !app_assoc. simpl.
    pose proof (emits_run_inv _ _ _ _ _ S R1).
    pose proof (emits_inv _ _ _ _ _ A R2). eauto 10.
  - exists d1, d2, d3, [], []. rewrite !app_nil_r, <- !app_assoc. simpl.
    pose proof (emits_run_inv _ _ _ _ _ S R1).
    pose proof (emits_inv _ _ _ _ _ A R2).
    pose proof (emits_run_inv _ _ _ _ _ H R3). eauto 10.
  - exists d1, d2, d3, d4, []. rewrite !app_nil_r, <- !app_assoc. simpl.
    pose proof (emits_run_inv _ _ _ _ _ S R1).
    pose proof (emits_inv _ _ _ _ _ A R2).
    pose proof (emits_run_inv _ _ _ _ _ H R3).
    pose proof (apply_loop_inv X _ _ _ _ _ _ _ _ L R4). eauto 10.
  - exists d1, d2, d3, d4, d5. rewrite <- !app_assoc. simpl.
    pose proof (emits_run_inv _ _ _ _ _ S R1).
    pose proof (emits_inv _ _ _ _ _ A R2).
    pose proof (emits_run_inv _ _ _ _ _ H R3).
    pose proof (apply_loop_inv X _ _ _ _ _ _ _ _ L R4).
    pose proof (emits_run_inv _ _ _ _ _ (configure_emits X objs) R5). eauto 10.
Qed.

(** ** C8: the totals of the summary *)

Lemma u64_add_mod a b : u64_add (a mod two64) b = ((a + b) mod two64)%N.
Proof.
  unfold u64_add.
  rewrite N.Div0.add_mod_idemp_l. reflexivity.
Qed.

Lemma sum_sizes_mod objs :
  forall dl inst,
    sum_sizes objs (dl mod two64)%N (inst mod two64)%N =
    (((dl + spec_total_download_size objs) mod two64)%N,
     ((inst + spec_total_installed_size objs) mod two64)%N).
Proof.
  induction objs as [| obj rest IH]; intros dl inst; simpl.
  - rewrite !N.add_0_r. reflexivity.
  - rewrite !u64_add_mod, IH.
    unfold spec_total_download_size, spec_total_installed_size,
      artifact_size, installed_bytes.
    simpl. rewrite !N.add_assoc. reflexivity.
Qed.

Lemma humanized_printf d :
  Forall (fun e => is_printf e = true) d -> humanized d = [].
Proof.
  intros F. apply collect_nil. eapply Forall_impl; [| exact F].
  intros []; simpl; congruence.
Qed.

(** The list of packages is output only, and the loop runs to its end. *)
Lemma show_pkg_list_prints objs :
  forall cols first tr, exists d,
    show_pkg_list objs cols first tr = (inl tt, (tr ++ d)) /\
    Forall (fun e => is_printf e = true) d.
Proof.
  induction objs as [| obj rest IH]; intros cols first tr; simpl.
  - exists []. rewrite app_nil_r. split; auto.
  - unfold bind, printf, emit, ret.
    destruct (_ <=? 80)%nat; [destruct (negb first) |]; simpl;
      match goal with
      | |- context [show_pkg_list rest ?c ?f ?t] =>
          destruct (IH c f t) as (d & E & F); rewrite E
      end;
      eexists; (split; [rewrite <- !app_assoc; reflexivity |]);
      simpl; repeat constructor; auto.
Qed.

(** C8, as stated, fails: the totals are [uint64_t] and wrap around.  Two
    packages of [2^63] bytes each give a download size of zero. *)
Lemma C8_download_total_wraps :
  fst (sum_sizes [huge_pkg; huge_pkg] 0 0) = 0%N /\
  spec_total_download_size [huge_pkg; huge_pkg] = (2 ^ 64)%N.
Proof. split; vm_compute; reflexivity. Qed.

(** C8, amended: the two totals of [show_transaction_sizes] are the sums
    of the entries' sizes modulo [2^64], hence the sums themselves when
    these are below [2^64]; they are the values given to the size
    formatter, whatever the names and versions printed in between. *)
Theorem C8_totals_are_sums_mod_2_64 (X : libxbps) (it : list pkg_dictionary)
  (descr : string) (tr : trace) :
  let dlsize := (spec_total_download_size it mod two64)%N in
  let instsize := (spec_total_installed_size it mod two64)%N in
  sum_sizes it 0 0 = (dlsize, instsize) /\
  ((spec_total_download_size it < two64)%N ->
   dlsize = spec_total_download_size it) /\
  ((spec_total_installed_size it < two64)%N ->
   instsize = spec_total_installed_size it) /\
  exists d,
    snd (show_transaction_sizes X it descr tr) = (tr ++ d) /\
    humanized d =
      match xbps_humanize_number X (to_int64 dlsize) with
      | Some _ => [to_int64 dlsize; to_int64 instsize]
      | None => [to_int64 dlsize]
      end.
Proof.
  intros dlsize instsize.
  assert (Es : sum_sizes it 0 0 = (dlsize, instsize)).
  { pose proof (sum_sizes_mod it 0 0) as H. simpl in H. exact H. }
  split; [exact Es |].
  split; [intros H; apply N.mod_small; exact H |].
  split; [intros H; apply N.mod_small; exact H |].
  unfold show_transaction_sizes. rewrite Es.
  unfold bind, printf, emit, humanize, ask, read, return_, ret.
  destruct (show_pkg_list_prints it 0 false
              (tr ++ [Ev_printf (cat [LF; "The following new packages will be "%string;
                                      descr; ":"%string; LF; LF])]))
    as (d & E & F).
  rewrite E. apply humanized_printf in F.
  destruct (xbps_humanize_number X (to_int64 dlsize)) as [s1 |] eqn:E1.
  - destruct (xbps_humanize_number X (to_int64 instsize)) as [s2 |] eqn:E2;
      eexists; (split; [simpl; rewrite <- !app_assoc; reflexivity |]);
      unfold humanized in *; rewrite !collect_app, F; simpl; rewrite ?E1; reflexivity.
  - eexists; (split; [simpl; rewrite <- !app_assoc; reflexivity |]).
    unfold humanized in *; rewrite !collect_app, F; simpl. reflexivity.
Qed.

(** ** C4: the integrity gate *)

Section Gate.

Variable X : libxbps.



End Gate.




(** ** One iteration of the first loop *)

Ltac has_oracle t :=
  match t with
  | context [xbps_find_pkg_installed_from_plist] => idtac
  | context [xbps_remove_pkg] => idtac
  | context [xbps_unpack_binary_pkg] => idtac
  | context [xbps_register_pkg] => idtac
  | context [xbps_set_pkg_state_dictionary] => idtac
  end.

(** Gives a name to the next answer of the environment in [H]. *)
Ltac name_answer H :=
  match type of H with
  | context [xbps_find_pkg_installed_from_plist ?X ?t ?n] =>
      tryif has_oracle t then fail
      else (remember (xbps_find_pkg_installed_from_plist X t n) as inst
              eqn:Eanswer in *; clear Eanswer)
  | context [xbps_remove_pkg ?X ?t ?n ?v ?k] =>
      tryif has_oracle t then fail
      else (remember (xbps_remove_pkg X t n v k) as rv_remove
              eqn:Eanswer in *; clear Eanswer)
  | context [xbps_unpack_binary_pkg ?X ?t ?o ?e] =>
      tryif has_oracle t then fail
      else (remember (xbps_unpack_binary_pkg X t o e) as rv_unpack
              eqn:Eanswer in *; clear Eanswer)
  | context [xbps_register_pkg ?X ?t ?o ?b] =>
      tryif has_oracle t then fail
      else (remember (xbps_register_pkg X t o b) as rv_register
              eqn:Eanswer in *; clear Eanswer)
  | context [xbps_set_pkg_state_dictionary ?X ?t ?o ?st] =>
      tryif has_oracle t then fail
      else (remember (xbps_set_pkg_state_dictionary X t o st) as rv_state
              eqn:Eanswer in *; clear Eanswer)
  end.

(** Splits [H] on a test whose subject holds no other test. *)
Ltac destruct_innermost H :=
  match type of H with
  | context [match ?x with _ => _ end] =>
      lazymatch x with
      | context [match _ with _ => _ end] => fail
      | _ => destruct x eqn:?; simpl in H
      end
  end.

Ltac unfold_entry H :=
  unfold apply_entry, is_dependency, replaces_installed, strcmp_ptr,
    find_pkg_installed_from_plist, remove_pkg, unpack_binary_pkg, register_pkg,
    set_pkg_state_dictionary, xbps_get_pkg_state_dictionary,
    bind, ask, printf, emit, ret, return_, undefined in H;
  simpl in H.

(** Every way through [apply_entry], one goal each. *)
Ltac entry_paths H := repeat first [name_answer H | destruct_innermost H].

Ltac use_eqns :=
  repeat match goal with
         | E : ?x = _ |- context [?x] => rewrite E
         end.

Lemma app_self_inv {A} (t d : list A) : t = t ++ d -> d = [].
Proof.
  intros E. rewrite <- (app_nil_r t) in E at 1.
  apply app_inv_head in E. auto.
Qed.

(** From [(r, t') = (r0, tr ++ d)], what [r0] and [d] are. *)
Ltac split_trace H :=
  inversion H; subst; clear H;
  match goal with
  | E : ?tr = ?tr ++ ?d |- _ => apply app_self_inv in E; subst d
  | E : _ = ?tr ++ ?d |- _ =>
      rewrite <- ?app_assoc in E; apply app_inv_head in E; subst d
  end.

Section Entry.

Variable X : libxbps.

Lemma apply_entry_extends T l obj tr r tr' :
  apply_entry X T l obj tr = (r, tr') -> exists d, tr' = tr ++ d.
Proof.
  intros H.
  destruct (emits_extends _ _ tr (apply_entry_emits X T l obj)) as (d & E).
  rewrite H in E. inversion E. eauto.
Qed.

(** An iteration that goes on to the next entry either passed over an
    entry that was UNPACKED, without any event, or unpacked and
    registered the entry and stored the state UNPACKED in it. *)
Lemma apply_entry_continue T l obj tr l' obj' d :
  apply_entry X T l obj tr = (inl (l', obj'), tr ++ d) ->
  l_essential l' = prop_dictionary_get_bool (essential obj) (l_essential l) /\
  ((unpacked obj = true /\ obj' = obj /\ d = [] /\
    l_isdep l' = dep_flag T obj || l_isdep l) \/
   (unpacked obj = false /\ obj' = set_state obj XBPS_PKG_STATE_UNPACKED /\
    l_isdep l' = false /\
    registrations d = [(obj, dep_flag T obj || l_isdep l)] /\
    existsb failed_step d = false)).
Proof.
  intros H. unfold_entry H. entry_paths H; try discriminate.
  all: split_trace H.
  all: unfold unpacked, dep_flag; simpl; use_eqns.
  all: try match goal with p : pkg_state_t |- _ => destruct p; try discriminate end.
  all: split; [reflexivity |]; simpl.
  all: try (left; repeat split; reflexivity).
  all: right; repeat split; try reflexivity.
Qed.

(** An iteration that leaves [exec_transaction]. *)
Lemma apply_entry_return T l obj tr o d :
  apply_entry X T l obj tr = (inr o, tr ++ d) ->
  (unpacked obj = true -> d = []) /\
  (registrations d = [] \/
   registrations d = [(obj, dep_flag T obj || l_isdep l)]) /\
  (existsb failed_step d = true ->
   exists rv, o = Returned rv /\ rv <> 0 /\ unpacked obj = false).
Proof.
  intros H. unfold_entry H. entry_paths H; try discriminate.
  all: split_trace H.
  all: unfold unpacked, dep_flag; simpl; use_eqns.
  all: try match goal with p : pkg_state_t |- _ => destruct p; try discriminate end.
  all: repeat split; try discriminate; auto.
  all: repeat match goal with
              | E : negb (_ =? 0) = _ |- _ =>
                  apply Bool.negb_true_iff in E || apply Bool.negb_false_iff in E
              | E : (?rv =? 0) = false |- _ => apply Z.eqb_neq in E
              | E : (?rv =? 0) = true |- _ => apply Z.eqb_eq in E; subst rv
              end.
  all: simpl; try discriminate; eauto.
Qed.

End Entry.

(** ** The first loop as a whole *)

Section Loop.

Variable X : libxbps.

Lemma apply_loop_extends T l objs tr r objs' tr' :
  apply_loop X T l objs tr = (r, objs', tr') -> exists d, tr' = tr ++ d.
Proof.
  intros H.
  destruct (apply_loop_emits X (fun _ => True) T objs
              (fun l0 obj _ =>
                 emits_weaken _ _ _ (fun _ _ => I) (apply_entry_emits X T l0 obj))
              l tr) as (d & E & _).
  rewrite H in E. simpl in E. eauto.
Qed.

(** The loop over [pre ++ rest] is the loop over [pre], then over [rest]. *)
Lemma apply_loop_app T pre rest :
  forall l tr,
    apply_loop X T l (pre ++ rest) tr =
    match apply_loop X T l pre tr with
    | (inl l', pre', tr') =>
        let '(r, rest', tr'') := apply_loop X T l' rest tr' in
        (r, pre' ++ rest', tr'')
    | (inr o, pre', tr') => (inr o, pre' ++ rest, tr')
    end.
Proof.
  induction pre as [| obj pre IH]; intros l tr; simpl.
  - destruct (apply_loop X T l rest tr) as [[r rest'] tr']. reflexivity.
  - destruct (apply_entry X T l obj tr) as [[[l' obj'] | o] tr1]; auto.
    rewrite IH.
    destruct (apply_loop X T l' pre tr1) as [[[l2 | o] pre'] tr2]; auto.
    destruct (apply_loop X T l2 rest tr2) as [[r rest'] tr3]. reflexivity.
Qed.

(** When the loop runs to its end, every entry is UNPACKED, and the
    names and versions are those it started with. *)
Lemma apply_loop_continue T objs :
  forall l tr l' objs' tr',
    apply_loop X T l objs tr = (inl l', objs', tr') ->
    Forall (fun obj => unpacked obj = true) objs' /\
    map name_version objs' = map name_version objs.
Proof.
  induction objs as [| obj rest IH]; intros l tr l' objs' tr' H; simpl in H.
  - inversion H; subst. auto.
  - destruct (apply_entry X T l obj tr) as [[[l1 obj1] | o] tr1] eqn:E1;
      [| discriminate].
    destruct (apply_loop X T l1 rest tr1) as [[r rest'] tr2] eqn:E2.
    inversion H; subst; clear H.
    destruct (IH _ _ _ _ _ E2) as [F Hn].
    destruct (apply_entry_extends X _ _ _ _ _ _ E1) as (d & ->).
    destruct (apply_entry_continue X _ _ _ _ _ _ _ E1)
      as [_ [(Hu & -> & _) | (_ & -> & _)]]; simpl.
    + split; [constructor; auto | f_equal; auto].
    + split; [constructor; auto | f_equal; auto].
Qed.

Lemma before_apply_emits T :
  emits (fun e => is_before_apply_event e = true) (before_apply X T).
Proof.
  unfold before_apply.
  assert (S : emits (fun e => is_before_apply_event e = true)
                (show_transaction_sizes X (iter T) (transaction_descr T))).
  { eapply emits_weaken; [| apply show_transaction_sizes_emits].
    intros e He. unfold is_before_apply_event. rewrite He. reflexivity. }
  assert (A : emits (fun e => is_before_apply_event e = true)
                (ask_to_continue X T)).
  { eapply emits_weaken; [| apply ask_to_continue_emits].
    intros e He. unfold is_before_apply_event. rewrite He.
    rewrite Bool.orb_true_r. reflexivity. }
  assert (H : emits (fun e => is_before_apply_event e = true)
                (check_pkg_hashes X (iter T))).
  { eapply emits_weaken; [| apply check_pkg_hashes_emits].
    intros e He. unfold is_before_apply_event. rewrite He.
    rewrite Bool.orb_true_r. reflexivity. }
  emits_auto.
Qed.

End Loop.

(** ** C3: the first loop stops at the first step that fails *)

(** C3: let the entries be [pre ++ obj :: post], let the first loop go
    through [pre] and let a remove, unpack, register or state step fail
    in the iteration of [obj].  Then [exec_transaction] returns the value
    of that step, which is not zero; the entries of [pre] are UNPACKED;
    [obj], which was not UNPACKED, and the entries of [post] are as they
    were; the trace ends with the iteration of [obj], so that nothing is
    attempted for [post]; and [xbps_configure_pkg] is never called. *)
Theorem C3_apply_fails_fast (X : libxbps) (T : transaction) (tr t0 t1 dK : trace)
  (pre post pre' : list pkg_dictionary) (obj : pkg_dictionary)
  (l : locals) (rv : Z) :
  iter T = pre ++ obj :: post ->
  before_apply X T tr = (inl tt, t0) ->
  apply_loop X T (mk_locals false false) pre t0 = (inl l, pre', t1) ->
  apply_entry X T l obj t1 = (inr (Returned rv), t1 ++ dK) ->
  existsb failed_step dK = true ->
  exec_transaction X T tr = (Returned rv, pre' ++ obj :: post, t1 ++ dK) /\
  rv <> 0 /\
  Forall (fun o => unpacked o = true) pre' /\
  map name_version pre' = map name_version pre /\
  unpacked obj = false /\
  exists d, t1 ++ dK = tr ++ d /\ configure_calls d = [].
Proof.
  intros Hit Hb Hl He Hf.
  destruct (apply_entry_return X _ _ _ _ _ _ He) as (_ & _ & Hr).
  destruct (Hr Hf) as (rv' & Erv & Hrv & Hu). inversion Erv; subst rv'.
  destruct (apply_loop_continue X _ _ _ _ _ _ _ Hl) as [F Hn].
  split.
  { unfold exec_transaction. rewrite Hb, Hit, apply_loop_app, Hl.
    simpl. rewrite He. reflexivity. }
  repeat split; auto.
  pose proof (emits_extends _ _ tr (before_apply_emits X T)) as (d0 & E0).
  rewrite Hb in E0. inversion E0 as [E0']. rewrite E0' in Hb.
  pose proof (emits_inv _ _ _ _ _ (before_apply_emits X T) Hb) as F0.
  destruct (apply_loop_extends X _ _ _ _ _ _ _ Hl) as (d4 & E4).
  rewrite E4 in Hl. rewrite E0' in Hl.
  pose proof (apply_loop_inv X _ _ _ _ _ _ _ _
                (fun l0 o (_ : In o pre) => apply_entry_emits X T l0 o) Hl) as F4.
  rewrite E4 in He.
  pose proof (emits_inv _ _ _ _ _ (apply_entry_emits X T l obj) He) as FK.
  exists (d0 ++ d4 ++ dK). split.
  - rewrite E4, E0', <- !app_assoc. reflexivity.
  - unfold configure_calls. rewrite !collect_app.
    rewrite (collect_kind is_before_apply_event _ d0), (collect_kind is_apply_event _ d4),
      (collect_kind is_apply_event _ dK); auto; by_kind.
Qed.

(** C3 at work: three packages, and the unpacking of the second one
    answers 5. *)
Lemma C3_apply_fails_fast_witness :
  exec_transaction bar_fails_env three_pkgs_trans [] =
    (Returned 5, [set_state foo XBPS_PKG_STATE_UNPACKED] ++ bar :: [baz],
     bar_fails_t1 ++ bar_fails_dK) /\
  5 <> 0 /\
  Forall (fun o => unpacked o = true) [set_state foo XBPS_PKG_STATE_UNPACKED] /\
  map name_version [set_state foo XBPS_PKG_STATE_UNPACKED] = map name_version [foo] /\
  unpacked bar = false /\
  exists d, bar_fails_t1 ++ bar_fails_dK = [] ++ d /\ configure_calls d = [].
Proof.
  apply (C3_apply_fails_fast bar_fails_env three_pkgs_trans [] bar_fails_t0 bar_fails_t1 bar_fails_dK
           [foo] [baz] [set_state foo XBPS_PKG_STATE_UNPACKED] bar
           (mk_locals false false) 5); reflexivity.
Defined.

(** ** C7: the second loop *)

Section Configure.

Variable X : libxbps.

Lemma configure_loop_calls objs :
  forall tr, exists d r,
    configure_loop X objs tr = (r, tr ++ d) /\
    match r with
    | inl _ => configure_calls d = configured_ok (map name_version objs)
    | inr o =>
        exists pre obj post rv,
          objs = pre ++ obj :: post /\ rv <> 0 /\ o = Returned rv /\
          configure_calls d =
            configured_ok (map name_version pre) ++ [(name_version obj, rv)]
    end.
Proof.
  induction objs as [| obj rest IH]; intros tr; simpl.
  - exists [], (inl tt). rewrite app_nil_r. auto.
  - unfold bind at 1 2, printf at 1, emit at 1, configure_pkg at 1, ask at 1.
    set (t1 := tr ++ [Ev_printf _]).
    set (rv := xbps_configure_pkg X t1 (pkgname obj) (version obj)).
    destruct (Z.eqb_spec rv 0) as [E0 | N0]; simpl.
    + destruct (IH (t1 ++ [Ev_configure_pkg (pkgname obj) (version obj) rv]))
        as (d & r & E & Hr).
      rewrite E. subst t1. rewrite <- !app_assoc.
      eexists; exists r; split; [reflexivity |].
      simpl. rewrite E0 in *.
      destruct r as [[] | o].
      * unfold configure_calls in *. simpl. rewrite Hr. reflexivity.
      * destruct Hr as (pre & obj' & post & rv' & -> & Hrv & -> & Hc).
        exists (obj :: pre), obj', post, rv'. repeat split; auto.
        unfold configure_calls in *. simpl. rewrite Hc. reflexivity.
    + unfold bind, printf, emit, return_. subst t1. rewrite <- !app_assoc.
      eexists; eexists; split; [reflexivity |].
      exists [], obj, rest, rv. repeat split; auto.
Qed.

End Configure.

(** C7: when the first loop has run to its end, [exec_transaction] calls
    [xbps_configure_pkg] with the name and the version of each entry of
    the sequence in turn, whatever its state was, up to the first call
    that does not answer zero: it returns that answer, and the entries
    after it are not configured. *)
Theorem C7_configure_single_pass (X : libxbps) (T : transaction)
  (tr t0 t1 : trace) (l : locals) (objs : list pkg_dictionary) :
  before_apply X T tr = (inl tt, t0) ->
  apply_loop X T (mk_locals false false) (iter T) t0 = (inl l, objs, t1) ->
  exists o d5,
    exec_transaction X T tr = (o, objs, t1 ++ d5) /\
    ((o = Returned 0 /\
      configure_calls d5 = configured_ok (map name_version (iter T))) \/
     (exists rv pre nv post,
        rv <> 0 /\ o = Returned rv /\
        map name_version (iter T) = pre ++ nv :: post /\
        configure_calls d5 = configured_ok pre ++ [(nv, rv)])).
Proof.
  intros Hb Hl.
  destruct (apply_loop_continue X _ _ _ _ _ _ _ Hl) as [_ Hn].
  destruct (configure_loop_calls X objs t1) as (d5 & r & E & Hr).
  unfold exec_transaction. rewrite Hb, Hl. unfold run, bind at 1. rewrite E.
  destruct r as [[] | o].
  - exists (Returned 0), d5. split; [reflexivity |]. left.
    rewrite <- Hn. auto.
  - destruct Hr as (pre & obj & post & rv & -> & Hrv & -> & Hc).
    exists (Returned rv), d5. split; [reflexivity |]. right.
    exists rv, (map name_version pre), (name_version obj), (map name_version post).
    repeat split; auto.
    rewrite <- Hn, map_app. reflexivity.
Qed.

(** C7 at work: the first entry was UNPACKED before the transaction and
    is passed over by the first loop; it is configured all the same. *)
Lemma C7_configure_single_pass_witness :
  exists o d5,
    exec_transaction all_ok_env resumed_trans [] =
      (o, [foo_unpacked; set_state bar XBPS_PKG_STATE_UNPACKED], resumed_t1 ++ d5) /\
    ((o = Returned 0 /\
      configure_calls d5 = configured_ok (map name_version (iter resumed_trans))) \/
     (exists rv pre nv post,
        rv <> 0 /\ o = Returned rv /\
        map name_version (iter resumed_trans) = pre ++ nv :: post /\
        configure_calls d5 = configured_ok pre ++ [(nv, rv)])).
Proof.
  apply (C7_configure_single_pass all_ok_env resumed_trans [] resumed_t0 resumed_t1
           (mk_locals false false)
           [foo_unpacked; set_state bar XBPS_PKG_STATE_UNPACKED]);
    reflexivity.
Defined.

(** ** C5: replace, or overwrite an essential package *)

Lemma strcmp_refl a : strcmp a a = 0.
Proof.
  unfold strcmp. pose proof (String.compare_antisym a a) as H.
  destruct (String.compare a a); simpl in H; auto; discriminate.
Qed.

Lemma strcmp_eq a b : (strcmp a b =? 0) = String.eqb a b.
Proof.
  destruct (String.eqb_spec a b) as [-> | N].
  - rewrite strcmp_refl. reflexivity.
  - unfold strcmp. destruct (String.compare a b) eqn:E; auto.
    apply String.compare_eq_iff in E. contradiction.
Qed.




(** ** C2 and C9: the value of [isdep] at each registration *)

Section Isdep.

Variable X : libxbps.
Variable T : transaction.
Variable o : string.
Hypothesis Htype : type T = TRANS_ONE.
Hypothesis Horigin : originpkgname T = Some o.

Lemma dep_flag_one obj : dep_flag T obj = negb (String.eqb o (pkgname obj)).
Proof. unfold dep_flag. rewrite Htype, Horigin, strcmp_eq. reflexivity. Qed.

(** An entry that is UNPACKED is passed over; the flag is set if its name
    is not the origin's, and kept otherwise. *)
Lemma apply_entry_skip l obj tr :
  unpacked obj = true ->
  apply_entry X T l obj tr =
    (inl (mk_locals (prop_dictionary_get_bool (essential obj) (l_essential l))
            (dep_flag T obj || l_isdep l), obj), tr).
Proof.
  unfold unpacked. intros Hu.
  unfold apply_entry, is_dependency, strcmp_ptr, dep_flag,
    xbps_get_pkg_state_dictionary, bind, ret.
  rewrite Htype, Horigin.
  destruct (state obj) as [[|] |]; try discriminate. simpl.
  destruct (negb (strcmp o (pkgname obj) =? 0)); reflexivity.
Qed.

(** What one iteration registers, and the flag it leaves. *)
Lemma apply_entry_isdep l obj tr r d :
  apply_entry X T l obj tr = (r, tr ++ d) ->
  (registrations d = [] \/
   registrations d = [(obj, negb (String.eqb o (pkgname obj)) || l_isdep l)]) /\
  forall l' obj', r = inl (l', obj') ->
    (unpacked obj = true /\ d = [] /\
     l_isdep l' = negb (String.eqb o (pkgname obj)) || l_isdep l) \/
    (unpacked obj = false /\ l_isdep l' = false /\
     registrations d = [(obj, negb (String.eqb o (pkgname obj)) || l_isdep l)]).
Proof.
  intros H. rewrite <- dep_flag_one. destruct r as [[l' obj'] | oc].
  - destruct (apply_entry_continue X _ _ _ _ _ _ _ H)
      as [_ [(Hu & _ & -> & Hl) | (Hu & _ & Hl & Hr & _)]].
    + split; [left; reflexivity |]. intros ? ? E; inversion E; subst. auto.
    + split; [right; exact Hr |]. intros ? ? E; inversion E; subst. auto.
  - destruct (apply_entry_return X _ _ _ _ _ _ H) as (_ & Hr & _).
    split; [exact Hr |]. discriminate.
Qed.

(** A property of the registrations that every iteration keeps, under an
    invariant of the flag, is a property of the whole loop. *)
Lemma apply_loop_registrations (I : bool -> Prop)
  (Q : pkg_dictionary * bool -> Prop) objs :
  (forall l obj, In obj objs -> I (l_isdep l) ->
     Q (obj, negb (String.eqb o (pkgname obj)) || l_isdep l) /\
     (unpacked obj = true -> I (negb (String.eqb o (pkgname obj)) || l_isdep l))) ->
  I false ->
  forall l tr r objs' d,
    I (l_isdep l) ->
    apply_loop X T l objs tr = (r, objs', tr ++ d) ->
    Forall Q (registrations d).
Proof.
  intros Hstep Hfalse.
  induction objs as [| obj rest IH]; intros l tr r objs' d Hl H; simpl in H.
  - inversion H as [[E1 E2 E3]]. apply app_self_inv in E3. subst. constructor.
  - destruct (apply_entry X T l obj tr) as [r1 tr1] eqn:E1.
    destruct (apply_entry_extends X _ _ _ _ _ _ E1) as (d1 & ->).
    destruct (apply_entry_isdep _ _ _ _ _ E1) as [Hr Hc].
    destruct (Hstep l obj (or_introl eq_refl) Hl) as [HQ HI].
    assert (F1 : Forall Q (registrations d1)).
    { destruct Hr as [-> | ->]; repeat constructor; auto. }
    destruct r1 as [[l' obj'] | oc].
    + destruct (apply_loop X T l' rest (tr ++ d1)) as [[r2 rest'] tr2] eqn:E2.
      destruct (apply_loop_extends X _ _ _ _ _ _ _ E2) as (d2 & ->).
      inversion H as [[Er Eo Et]]. rewrite <- app_assoc in Et.
      apply app_inv_head in Et. subst d.
      unfold registrations in *. rewrite collect_app. apply Forall_app. split; auto.
      eapply (IH (fun l0 o0 Hin => Hstep l0 o0 (or_intror Hin))); [| exact E2].
      destruct (Hc _ _ eq_refl) as [(Hu & _ & ->) | (_ & -> & _)]; auto.
    + inversion H as [[Er Eo Et]]. apply app_inv_head in Et. subst d. exact F1.
Qed.

(** While the flag is set, the next registration is given [true]. *)
Lemma first_registration_flagged objs :
  forall l tr r objs' d,
    l_isdep l = true ->
    apply_loop X T l objs tr = (r, objs', tr ++ d) ->
    forall obj b, hd_error (registrations d) = Some (obj, b) -> b = true.
Proof.
  induction objs as [| obj rest IH]; intros l tr r objs' d Hl H x b Hx;
    simpl in H.
  - inversion H as [[E1 E2 E3]]. apply app_self_inv in E3. subst. discriminate.
  - destruct (apply_entry X T l obj tr) as [r1 tr1] eqn:E1.
    destruct (apply_entry_extends X _ _ _ _ _ _ E1) as (d1 & ->).
    destruct (apply_entry_isdep _ _ _ _ _ E1) as [Hr Hc].
    rewrite Hl, Bool.orb_true_r in Hr, Hc.
    destruct r1 as [[l' obj'] | oc].
    + destruct (apply_loop X T l' rest (tr ++ d1)) as [[r2 rest'] tr2] eqn:E2.
      destruct (apply_loop_extends X _ _ _ _ _ _ _ E2) as (d2 & ->).
      inversion H as [[Er Eo Et]]. rewrite <- app_assoc in Et.
      apply app_inv_head in Et. subst d.
      unfold registrations in *. rewrite collect_app in Hx.
      destruct (Hc _ _ eq_refl) as [(Hu & -> & Hl') | (_ & _ & Hreg)].
      * simpl in Hx. eapply IH; eauto.
      * rewrite Hreg in Hx. simpl in Hx. congruence.
    + inversion H as [[Er Eo Et]]. apply app_inv_head in Et. subst d.
      destruct Hr as [Hr | Hr]; rewrite Hr in Hx; simpl in Hx; congruence.
Qed.

(** Entries that are UNPACKED are passed over without any event; the
    flag is set as soon as one of them is not the origin. *)
Lemma apply_loop_skip objs :
  forall l tr,
    Forall (fun obj => unpacked obj = true) objs ->
    exists l',
      apply_loop X T l objs tr = (inl l', objs, tr) /\
      l_isdep l' =
        existsb (fun obj => negb (String.eqb o (pkgname obj))) objs || l_isdep l.
Proof.
  induction objs as [| obj rest IH]; intros l tr F; simpl.
  - exists l. auto.
  - inversion F as [| ? ? Hu Frest]; subst.
    rewrite (apply_entry_skip l obj tr Hu).
    destruct (IH (mk_locals (prop_dictionary_get_bool (essential obj) (l_essential l))
                    (dep_flag T obj || l_isdep l)) tr Frest) as (l' & E & Hl).
    rewrite E. exists l'. split; [reflexivity |].
    rewrite Hl. simpl. rewrite dep_flag_one.
    destruct (negb (String.eqb o (pkgname obj))),
      (existsb (fun obj0 => negb (String.eqb o (pkgname obj0))) rest),
      (l_isdep l); reflexivity.
Qed.

End Isdep.

(** C2, as stated, fails: with the origin "foo" followed by "bar" and
    "baz", both "bar" and "baz" are registered with [isdep = true], where
    the claim wants [true] for "bar" only. *)
Lemma C2_later_dependency_flagged :
  registered_names (snd (exec_transaction all_ok_env three_pkgs_trans []))
    = [("foo"%string, false); ("bar"%string, true); ("baz"%string, true)] /\
  spec_is_dependency_flags "foo" false false
    (map pkgname (iter three_pkgs_trans)) = [false; true; false].
Proof. split; reflexivity. Qed.

(** C2, amended: in a transaction of type [TRANS_ONE], every entry that
    is registered under a name other than the origin's is registered with
    [isdep = true]; and when no entry other than the origin is UNPACKED
    beforehand, the origin is registered with [isdep = false], so that
    the flag of each registration tells whether the entry is the origin. *)
Theorem C2_dependencies_flagged (X : libxbps) (T : transaction) (o : string)
  (tr : trace) :
  type T = TRANS_ONE ->
  originpkgname T = Some o ->
  exists d,
    snd (exec_transaction X T tr) = tr ++ d /\
    Forall (fun r => String.eqb o (pkgname (fst r)) = false -> snd r = true)
      (registrations d) /\
    ((forall obj, In obj (iter T) ->
        String.eqb o (pkgname obj) = false -> unpacked obj = false) ->
     Forall (fun r => snd r = negb (String.eqb o (pkgname (fst r))))
       (registrations d)).
Proof.
  intros Ht Ho.
  pose proof (show_transaction_sizes_emits X (iter T) (transaction_descr T)) as S.
  pose proof (ask_to_continue_emits X T) as A.
  pose proof (check_pkg_hashes_emits X (iter T)) as H.
  assert (N1 : forall d, Forall (fun e => is_summary_event e = true) d ->
                         registrations d = [])
    by (intros d; apply collect_kind; by_kind).
  assert (N2 : forall d, Forall (fun e => is_confirm_event e = true) d ->
                         registrations d = [])
    by (intros d; apply collect_kind; by_kind).
  assert (N3 : forall d, Forall (fun e => is_hash_event e = true) d ->
                         registrations d = [])
    by (intros d; apply collect_kind; by_kind).
  assert (N5 : forall d, Forall (fun e => is_configure_event e = true) d ->
                         registrations d = [])
    by (intros d; apply collect_kind; by_kind).
  assert (L1 : forall l objs' r t d,
             apply_loop X T l (iter T) t = (r, objs', t ++ d) ->
             Forall (fun r => String.eqb o (pkgname (fst r)) = false -> snd r = true)
               (registrations d)).
  { intros l objs' r t d E.
    eapply (apply_loop_registrations X T o Ht Ho (fun _ => True)); eauto.
    intros l0 obj _ _. split; auto. simpl. intros ->. reflexivity. }
  assert (L2 : (forall obj, In obj (iter T) ->
                  String.eqb o (pkgname obj) = false -> unpacked obj = false) ->
               forall objs' r t d,
                 apply_loop X T (mk_locals false false) (iter T) t
                   = (r, objs', t ++ d) ->
                 Forall (fun r => snd r = negb (String.eqb o (pkgname (fst r))))
                   (registrations d)).
  { intros Hskip objs' r t d E.
    eapply (apply_loop_registrations X T o Ht Ho (fun b => b = false));
      [| reflexivity | | exact E]; [| reflexivity].
    intros l0 obj Hin Hl. rewrite Hl, Bool.orb_false_r. split; [reflexivity |].
    intros Hu. destruct (String.eqb o (pkgname obj)) eqn:En; auto.
    rewrite (Hskip obj Hin En) in Hu. discriminate. }
  destruct (exec_transaction_path X T tr)
    as [oc d1 R1 _ | oc d1 d2 R1 R2 | oc d1 d2 d3 R1 R2 R3 _
        | oc objs d1 d2 d3 d4 R1 R2 R3 R4 | oc l objs d1 d2 d3 d4 d5 R1 R2 R3 R4 R5].
  all: pose proof (emits_run_inv _ _ _ _ _ S R1) as F1.
  all: try pose proof (emits_inv _ _ _ _ _ A R2) as F2.
  all: try pose proof (emits_run_inv _ _ _ _ _ H R3) as F3.
  all: try pose proof (emits_run_inv _ _ _ _ _ (configure_emits X objs) R5) as F5.
  - exists d1. rewrite (N1 _ F1). simpl. auto.
  - exists (d1 ++ d2). unfold registrations in *.
    rewrite <- app_assoc, collect_app, (N1 _ F1), (N2 _ F2). simpl. auto.
  - exists (d1 ++ d2 ++ d3). unfold registrations in *.
    rewrite <- !app_assoc, !collect_app, (N1 _ F1), (N2 _ F2), (N3 _ F3).
    simpl. auto.
  - exists (d1 ++ d2 ++ d3 ++ d4). unfold registrations in *.
    rewrite <- !app_assoc, !collect_app, (N1 _ F1), (N2 _ F2), (N3 _ F3).
    simpl. split; [reflexivity |]. split; eauto.
  - exists (d1 ++ d2 ++ d3 ++ d4 ++ d5). unfold registrations in *.
    rewrite <- !app_assoc, !collect_app, (N1 _ F1), (N2 _ F2), (N3 _ F3),
      (N5 _ F5).
    simpl. rewrite app_nil_r. split; [reflexivity |]. split; eauto.
Qed.

(** C2 at work: the origin "foo", then "bar" and "baz". *)
Lemma C2_dependencies_flagged_witness :
  exists d,
    snd (exec_transaction all_ok_env three_pkgs_trans []) = [] ++ d /\
    Forall (fun r => String.eqb "foo" (pkgname (fst r)) = false -> snd r = true)
      (registrations d) /\
    ((forall obj, In obj (iter three_pkgs_trans) ->
        String.eqb "foo" (pkgname obj) = false -> unpacked obj = false) ->
     Forall (fun r => snd r = negb (String.eqb "foo" (pkgname (fst r))))
       (registrations d)).
Proof.
  apply (C2_dependencies_flagged all_ok_env three_pkgs_trans "foo" []); reflexivity.
Defined.

(** C9: in a transaction of type [TRANS_ONE], let an entry whose name is
    not the origin's be UNPACKED already, and let the entries [mid] that
    follow it be UNPACKED as well.  The loop passes over them and leaves
    [isdep] set; the first registration after them, if there is one, is
    made with [isdep = true], whatever the entry. *)
Theorem C9_flag_survives_skip (X : libxbps) (T : transaction) (o : string)
  (l : locals) (dep : pkg_dictionary) (mid rest : list pkg_dictionary)
  (tr : trace) :
  type T = TRANS_ONE ->
  originpkgname T = Some o ->
  String.eqb o (pkgname dep) = false ->
  unpacked dep = true ->
  Forall (fun obj => unpacked obj = true) mid ->
  (exists l',
     apply_loop X T l (dep :: mid) tr = (inl l', dep :: mid, tr) /\
     l_isdep l' = true) /\
  exists d,
    snd (apply_loop X T l (dep :: mid ++ rest) tr) = tr ++ d /\
    forall obj b, hd_error (registrations d) = Some (obj, b) -> b = true.
Proof.
  intros Ht Ho Hn Hu Fmid.
  destruct (apply_loop_skip X T o Ht Ho (dep :: mid) l tr
              (Forall_cons _ Hu Fmid)) as (l' & E & Hl).
  simpl in Hl. rewrite Hn in Hl. simpl in Hl.
  split; [exists l'; auto |].
  change (dep :: mid ++ rest) with ((dep :: mid) ++ rest).
  rewrite apply_loop_app, E.
  destruct (apply_loop X T l' rest tr) as [[r rest'] tr'] eqn:E2.
  destruct (apply_loop_extends X _ _ _ _ _ _ _ E2) as (d & ->).
  exists d. split; [reflexivity |].
  eapply first_registration_flagged; eauto.
Qed.

(** C9 at work: the dependency "bar" is UNPACKED already, and the origin
    "foo" itself is registered as a dependency. *)
Lemma C9_flag_survives_skip_witness :
  registered_names
    (snd (apply_loop all_ok_env dep_unpacked_trans (mk_locals false false)
            (bar_unpacked :: [] ++ [foo]) []))
    = [("foo"%string, true)] /\
  (exists l',
     apply_loop all_ok_env dep_unpacked_trans (mk_locals false false) (bar_unpacked :: []) []
       = (inl l', bar_unpacked :: [], []) /\
     l_isdep l' = true) /\
  exists d,
    snd (apply_loop all_ok_env dep_unpacked_trans (mk_locals false false)
           (bar_unpacked :: [] ++ [foo]) []) = [] ++ d /\
    forall obj b, hd_error (registrations d) = Some (obj, b) -> b = true.
Proof.
  split; [reflexivity |].
  apply (C9_flag_survives_skip all_ok_env dep_unpacked_trans "foo" (mk_locals false false)
           bar_unpacked [] [foo] []); try reflexivity.
  constructor.
Defined.

(** ** C6 and C10: the exit status *)

Section Exit.

Variable X : libxbps.

Lemma quiet_not_declined d :
  Forall (fun e => is_noyes e = false) d -> ~ declined d.
Proof.
  intros F (p & Hin). rewrite Forall_forall in F.
  specialize (F _ Hin). discriminate.
Qed.

Lemma declined_app d1 d2 : declined (d1 ++ d2) -> declined d1 \/ declined d2.
Proof.
  intros (p & Hin). apply in_app_or in Hin.
  destruct Hin; [left | right]; exists p; auto.
Qed.

Lemma untouched_app d1 d2 : untouched d1 -> untouched d2 -> untouched (d1 ++ d2).
Proof.
  intros [H1 M1] [H2 M2]. split.
  - unfold hash_checks in *. rewrite collect_app, H1, H2. reflexivity.
  - apply Forall_app; auto.
Qed.

Lemma quiet_untouched d : Forall (fun e => quiet e = true) d -> untouched d.
Proof.
  intros F. split.
  - revert F. apply collect_kind. by_kind.
  - revert F. apply Forall_kind. by_kind.
Qed.

Lemma quiet_no_question d :
  Forall (fun e => quiet e = true) d -> Forall (fun e => is_noyes e = false) d.
Proof. apply Forall_kind. by_kind. Qed.

Lemma exits_ok_quiet (m : M Z) :
  emits (fun e => quiet e = true) m -> exits_ok_if_declined m.
Proof.
  intros Hm tr. destruct (Hm tr) as (d & E & F).
  exists (fst (m tr)), d. split.
  - destruct (m tr); simpl in *; subst; reflexivity.
  - intros Hd. destruct (quiet_not_declined d (quiet_no_question d F) Hd).
Qed.

Lemma exits_ok_bind {A} (m : M A) (k : A -> M Z) :
  emits (fun e => quiet e = true) m ->
  (forall a, exits_ok_if_declined (k a)) ->
  exits_ok_if_declined (bind m k).
Proof.
  intros Hm Hk tr. unfold bind.
  destruct (Hm tr) as (d1 & E1 & F1).
  destruct (m tr) as [[a | oc] t1]; simpl in E1; subst t1.
  - destruct (Hk a (tr ++ d1)) as (r & d2 & E2 & H2).
    exists r, (d1 ++ d2). rewrite E2, app_assoc. split; [reflexivity |].
    intros Hd. apply declined_app in Hd. destruct Hd as [Hd | Hd].
    + destruct (quiet_not_declined d1 (quiet_no_question d1 F1) Hd).
    + destruct (H2 Hd) as [-> U2]. split; [reflexivity |].
      apply untouched_app; auto. apply quiet_untouched; auto.
  - exists (inr oc), d1. split; [reflexivity |].
    intros Hd. destruct (quiet_not_declined d1 (quiet_no_question d1 F1) Hd).
Qed.

(** The question is the only place where the answer "no" is recorded; it
    makes [exec_transaction] return zero at once. *)
Lemma ask_to_continue_cases T t r d2 :
  ask_to_continue X T t = (r, t ++ d2) ->
  (r = inl tt /\ Forall (fun e => quiet e = true \/ exists p, e = Ev_noyes p true) d2) \/
  (r = inr (Returned 0) /\ force T = false /\
   Forall (fun e => is_mutation e = false /\ is_hash_check e = false) d2).
Proof.
  unfold ask_to_continue, noyes, bind, ask, printf, emit, ret, return_.
  destruct (force T); simpl.
  - intros E. inversion E as [[Er Et]]. apply app_self_inv in Et. subst.
    left. auto.
  - destruct (xbps_noyes X t _) eqn:Ey; simpl; intros E;
      inversion E as [[Er Et]]; rewrite <- ?app_assoc in Et;
      apply app_inv_head in Et; subst d2.
    + left. split; [reflexivity |].
      apply Forall_cons; [right; eauto | apply Forall_nil].
    + right. repeat split. repeat (apply Forall_cons; [split; reflexivity |]).
      apply Forall_nil.
Qed.

Lemma exec_transaction_declined T tr :
  exists o objs d,
    exec_transaction X T tr = (o, objs, tr ++ d) /\
    (declined d -> o = Returned 0 /\ objs = iter T /\ force T = false /\
                   untouched d).
Proof.
  pose proof (show_transaction_sizes_emits X (iter T) (transaction_descr T)) as S.
  pose proof (check_pkg_hashes_emits X (iter T)) as H.
  pose proof (fun l obj (_ : In obj (iter T)) => apply_entry_emits X T l obj) as L.
  assert (Q1 : forall d, Forall (fun e => is_summary_event e = true) d ->
                         Forall (fun e => quiet e = true) d)
    by (intros d; apply Forall_kind; by_kind).
  assert (N3 : forall d, Forall (fun e => is_hash_event e = true) d ->
                         Forall (fun e => is_noyes e = false) d)
    by (intros d; apply Forall_kind; by_kind).
  assert (N4 : forall d, Forall (fun e => is_apply_event e = true) d ->
                         Forall (fun e => is_noyes e = false) d)
    by (intros d; apply Forall_kind; by_kind).
  assert (N5 : forall d, Forall (fun e => is_configure_event e = true) d ->
                         Forall (fun e => is_noyes e = false) d)
    by (intros d; apply Forall_kind; by_kind).
  assert (N2 : forall d,
             Forall (fun e => quiet e = true \/ exists p, e = Ev_noyes p true) d ->
             ~ declined d).
  { intros d F (p & Hin). rewrite Forall_forall in F.
    destruct (F _ Hin) as [Hq | (p' & Hp)]; discriminate. }
  destruct (exec_transaction_path X T tr)
    as [o d1 R1 _ | o d1 d2 R1 R2 | o d1 d2 d3 R1 R2 R3 _
        | o objs d1 d2 d3 d4 R1 R2 R3 R4 | o l objs d1 d2 d3 d4 d5 R1 R2 R3 R4 R5].
  all: pose proof (emits_run_inv _ _ _ _ _ S R1) as F1.
  all: try pose proof (emits_run_inv _ _ _ _ _ H R3) as F3.
  all: try pose proof (apply_loop_inv X _ _ _ _ _ _ _ _ L R4) as F4.
  all: try pose proof (emits_run_inv _ _ _ _ _ (configure_emits X objs) R5) as F5.
  all: try (destruct (ask_to_continue_cases _ _ _ _ R2)
              as [[Er F2] | (Er & Hf & F2)]; try discriminate).
  - exists o, (iter T), d1. split; [reflexivity |]. intros Hd.
    destruct (quiet_not_declined d1 (quiet_no_question d1 (Q1 _ F1)) Hd).
  - inversion Er; subst o.
    exists (Returned 0), (iter T), (d1 ++ d2). rewrite app_assoc.
    split; [reflexivity |]. intros _. repeat split; auto.
    + unfold hash_checks. rewrite collect_app.
      rewrite (collect_kind is_summary_event _ d1); auto; [| by_kind].
      simpl. apply collect_nil. eapply Forall_impl; [| exact F2].
      intros [] [_ Hh]; simpl in *; congruence.
    + apply Forall_app. split.
      * apply quiet_untouched. auto.
      * eapply Forall_impl; [| exact F2]. intros e [Hm _]; exact Hm.
  - exists o, (iter T), (d1 ++ d2 ++ d3). rewrite !app_assoc.
    split; [reflexivity |]. intros Hd.
    apply declined_app in Hd. destruct Hd as [Hd | Hd];
      [apply declined_app in Hd; destruct Hd as [Hd | Hd] |].
    + destruct (quiet_not_declined d1 (quiet_no_question d1 (Q1 _ F1)) Hd).
    + destruct (N2 _ F2 Hd).
    + destruct (quiet_not_declined d3 (N3 _ F3) Hd).
  - exists o, objs, (d1 ++ d2 ++ d3 ++ d4). rewrite !app_assoc.
    split; [reflexivity |]. intros Hd.
    apply declined_app in Hd. destruct Hd as [Hd | Hd];
      [apply declined_app in Hd; destruct Hd as [Hd | Hd];
       [apply declined_app in Hd; destruct Hd as [Hd | Hd] |] |].
    + destruct (quiet_not_declined d1 (quiet_no_question d1 (Q1 _ F1)) Hd).
    + destruct (N2 _ F2 Hd).
    + destruct (quiet_not_declined d3 (N3 _ F3) Hd).
    + destruct (quiet_not_declined d4 (N4 _ F4) Hd).
  - exists o, objs, (d1 ++ d2 ++ d3 ++ d4 ++ d5). rewrite !app_assoc.
    split; [reflexivity |]. intros Hd.
    apply declined_app in Hd. destruct Hd as [Hd | Hd];
      [apply declined_app in Hd; destruct Hd as [Hd | Hd];
       [apply declined_app in Hd; destruct Hd as [Hd | Hd];
        [apply declined_app in Hd; destruct Hd as [Hd | Hd] |] |] |].
    + destruct (quiet_not_declined d1 (quiet_no_question d1 (Q1 _ F1)) Hd).
    + destruct (N2 _ F2 Hd).
    + destruct (quiet_not_declined d3 (N3 _ F3) Hd).
    + destruct (quiet_not_declined d4 (N4 _ F4) Hd).
    + destruct (quiet_not_declined d5 (N5 _ F5) Hd).
Qed.

Lemma cleanup_emits rv :
  emits (fun e => quiet e = true) (@cleanup Z rv).
Proof. unfold cleanup, exit. emits_auto. Qed.

Lemma callback_array_iter_emits objs :
  emits (fun e => quiet e = true) (callback_array_iter objs).
Proof.
  induction objs as [| obj rest IH]; simpl.
  - apply emits_ret.
  - unfold show_missing_dep_cb. emits_auto.
Qed.

Lemma find_new_pkgs_emits objs :
  forall rv, emits (fun e => quiet e = true) (find_new_pkgs X objs rv).
Proof.
  induction objs as [| obj rest IH]; intros rv; simpl.
  - apply emits_ret.
  - pose proof cleanup_emits. emits_auto.
Qed.

(** The transaction, then [cleanup]. *)
Lemma exec_then_cleanup_exits_ok T :
  exits_ok_if_declined (rv <- exec X T ;; cleanup rv).
Proof.
  intros tr. unfold bind, exec.
  destruct (exec_transaction_declined T tr) as (o & objs & d & E & Hd).
  rewrite E. destruct o as [rv |].
  - unfold cleanup, exit, bind, emit, return_. simpl.
    eexists; eexists; split; [rewrite <- !app_assoc; reflexivity |].
    intros Hdecl. apply declined_app in Hdecl.
    destruct Hdecl as [Hdecl | (p & [Hp | [Hp | []]])]; try discriminate.
    destruct (Hd Hdecl) as (Erv & _ & _ & U). inversion Erv; subst rv.
    split; [reflexivity |].
    apply untouched_app; auto. apply quiet_untouched. repeat constructor.
  - exists (inr Undefined), d. split; [reflexivity |].
    intros Hdecl. destruct (Hd Hdecl) as (Erv & _). discriminate.
Qed.

Ltac quiet_tac :=
  pose proof cleanup_emits; pose proof callback_array_iter_emits;
  pose proof find_new_pkgs_emits;
  unfold show_missing_deps, find_pkg_installed_from_plist; emits_auto.

Ltac exits_step :=
  match goal with
  | |- exits_ok_if_declined (bind (exec _ _) _) => apply exec_then_cleanup_exits_ok
  | |- exits_ok_if_declined (bind _ _) =>
      apply exits_ok_bind; [solve [quiet_tac] | intros ?]
  | |- exits_ok_if_declined (if ?b then _ else _) => destruct b eqn:?
  | |- exits_ok_if_declined (match ?x with _ => _ end) => destruct x eqn:?
  | |- exits_ok_if_declined _ => apply exits_ok_quiet; solve [quiet_tac]
  end.

Lemma xbps_install_pkg_exits_ok pkg force update :
  exits_ok_if_declined (xbps_install_pkg X pkg force update).
Proof. unfold xbps_install_pkg. repeat exits_step. Qed.

Lemma xbps_autoupdate_pkgs_exits_ok force :
  exits_ok_if_declined (xbps_autoupdate_pkgs X force).
Proof. unfold xbps_autoupdate_pkgs. repeat exits_step. Qed.

End Exit.

(** C6, as stated, fails: the update of a package that is not installed
    ends with [cleanup(0)], and the exit status is [EXIT_SUCCESS]. *)
Lemma C6_update_of_missing_package_exits_0 :
  run (xbps_install_pkg all_ok_env "foo" false true) [] =
    (Returned EXIT_SUCCESS,
     [ Ev_find_pkg_installed "foo" None;
       Ev_printf (cat ["Package '"%string; "foo"%string;
                       "' not installed."%string; LF]);
       Ev_release_repolist_data;
       Ev_release_regpkgdb_dict ]) /\
  EXIT_SUCCESS = 0.
Proof. split; reflexivity. Qed.

(** C6, amended: when [xbps_install_pkg] is asked to update a package
    that is not installed, it prints that the package is not installed,
    releases the repository and package data, and exits with
    [EXIT_SUCCESS]; nothing else is called. *)
Theorem C6_update_not_installed (X : libxbps) (pkg : string) (force : bool)
  (tr : trace) :
  xbps_find_pkg_installed_from_plist X tr pkg = None ->
  run (xbps_install_pkg X pkg force true) tr =
    (Returned EXIT_SUCCESS,
     tr ++ [ Ev_find_pkg_installed pkg None;
             Ev_printf (cat ["Package '"%string; pkg;
                             "' not installed."%string; LF]);
             Ev_release_repolist_data;
             Ev_release_regpkgdb_dict ]).
Proof.
  intros Hn.
  unfold xbps_install_pkg, run, bind, find_pkg_installed_from_plist, ask,
    printf, cleanup, exit, emit, return_.
  rewrite Hn. simpl. rewrite <- !app_assoc. reflexivity.
Qed.

(** C6 at work: the update of "foo", which is not installed. *)
Lemma C6_update_not_installed_witness :
  run (xbps_install_pkg all_ok_env "foo" true true) [] =
    (Returned EXIT_SUCCESS,
     [] ++ [ Ev_find_pkg_installed "foo" None;
             Ev_printf (cat ["Package '"%string; "foo"%string;
                             "' not installed."%string; LF]);
             Ev_release_repolist_data;
             Ev_release_regpkgdb_dict ]).
Proof.
  apply (C6_update_not_installed all_ok_env "foo" true []). reflexivity.
Defined.

(** C10: with [force] unset, when the sizes have been shown and the user
    answers no, [exec_transaction] prints "Aborting!" and returns zero:
    its events are those of the summary and the question, and the
    entries are untouched.  For both entry points, a run in which the
    user answered no ends with [EXIT_SUCCESS], and holds no hash check
    and no call of remove, unpack, register, set-state or configure. *)
Theorem C10_declined_exits_with_success (X : libxbps) :
  (forall T tr t1,
      force T = false ->
      run (show_transaction_sizes X (iter T) (transaction_descr T)) tr
        = (Returned 0, t1) ->
      xbps_noyes X t1 "Do you want to continue?" = false ->
      exec_transaction X T tr =
        (Returned 0, iter T,
         t1 ++ [ Ev_noyes "Do you want to continue?" false;
                 Ev_printf (cat ["Aborting!"%string; LF]) ]) /\
      exists d1, t1 = tr ++ d1 /\ Forall (fun e => is_summary_event e = true) d1) /\
  (forall pkg force update,
      exits_ok_if_declined (xbps_install_pkg X pkg force update)) /\
  (forall force, exits_ok_if_declined (xbps_autoupdate_pkgs X force)).
Proof.
  split; [| split].
  - intros T tr t1 Hf Hs Hn.
    pose proof (show_transaction_sizes_emits X (iter T) (transaction_descr T)) as S.
    split.
    + unfold exec_transaction, before_apply, bind at 1, call at 1.
      unfold run in Hs.
      destruct (show_transaction_sizes X (iter T) (transaction_descr T) tr)
        as [[rv | [rv |]] t] eqn:E; inversion Hs; subst; simpl.
      all: unfold bind at 1, ask_to_continue; rewrite Hf; simpl.
      all: unfold bind, noyes, ask, printf, emit, return_; rewrite Hn; simpl.
      all: rewrite <- app_assoc; reflexivity.
    + destruct (S tr) as (d1 & E1 & F1). exists d1. split; auto.
      unfold run in Hs.
      destruct (show_transaction_sizes X (iter T) (transaction_descr T) tr)
        as [[rv | o] t]; simpl in E1; inversion Hs; subst; reflexivity.
  - intros. apply xbps_install_pkg_exits_ok.
  - intros. apply xbps_autoupdate_pkgs_exits_ok.
Qed.

(** C10 at work: the installation of "foo" is prepared, the user says
    no, and the process exits with [EXIT_SUCCESS] after the summary. *)
Lemma C10_declined_exits_with_success_witness :
  (exec_transaction declining_env confirm_trans [] =
     (Returned 0, iter confirm_trans,
      declined_t1 ++ [ Ev_noyes "Do you want to continue?" false;
                       Ev_printf (cat ["Aborting!"%string; LF]) ]) /\
   exists d1, declined_t1 = [] ++ d1 /\
              Forall (fun e => is_summary_event e = true) d1) /\
  fst (run (xbps_install_pkg declining_env "foo" false false) [])
    = Returned EXIT_SUCCESS /\
  calls (snd (run (xbps_install_pkg declining_env "foo" false false) []))
    = [ Ev_find_pkg_installed "foo" None;
        Ev_prepare_pkg "foo" 0;
        Ev_get_pkg_props
          (Some {| missing_deps := []; origin := Some "foo"%string;
                   packages := [foo] |});
        Ev_humanize_number 10 (Some "1K"%string);
        Ev_humanize_number 20 (Some "1K"%string);
        Ev_noyes "Do you want to continue?" false;
        Ev_release_repolist_data;
        Ev_release_regpkgdb_dict ].
Proof.
  split; [| split; reflexivity].
  apply (proj1 (C10_declined_exits_with_success declining_env)
           confirm_trans [] declined_t1); reflexivity.
Defined.

(** ** The scenarios of the specification *)

(** Scenario A: "foo" 1.0 is installed from scratch with [force] set. *)
Example scenario_A :
  let '(o, objs, tr) :=
    exec_transaction all_ok_env (example_trans TRANS_ONE [foo] true false None) [] in
  o = Returned 0 /\
  objs = [set_state foo XBPS_PKG_STATE_UNPACKED] /\
  calls tr = [ Ev_humanize_number 10 (Some "1K"%string);
               Ev_humanize_number 20 (Some "1K"%string);
               Ev_check_pkg_file_hash foo "/repo" 0;
               Ev_unpack_binary_pkg foo false 0;
               Ev_register_pkg foo false 0;
               Ev_set_pkg_state foo XBPS_PKG_STATE_UNPACKED 0;
               Ev_configure_pkg "foo" "1.0" 0 ].
Proof. repeat split; reflexivity. Qed.

(** Scenario B: "foo" is installed already and no update is asked for. *)
Example scenario_B :
  run (xbps_install_pkg foo_installed_env "foo" true false) [] =
    (Returned EXIT_SUCCESS,
     [ Ev_find_pkg_installed "foo" (Some old_foo);
       Ev_printf (cat ["Package '"%string; "foo"%string;
                       "' is already installed."%string; LF]);
       Ev_release_repolist_data;
       Ev_release_regpkgdb_dict ]).
Proof. reflexivity. Qed.

(** Scenario E: the hash of the second of two packages does not match. *)
Example scenario_E :
  let '(o, objs, tr) :=
    exec_transaction
      (example_env true nothing_installed (mismatch_for "bar") always_ok None)
      (example_trans TRANS_ONE [foo; bar] true false None) [] in
  o = Returned (-1) /\
  objs = [foo; bar] /\
  calls tr = [ Ev_humanize_number 20 (Some "1K"%string);
               Ev_humanize_number 40 (Some "1K"%string);
               Ev_check_pkg_file_hash foo "/repo" 0;
               Ev_check_pkg_file_hash bar "/repo" ERANGE ].
Proof. repeat split; reflexivity. Qed.

(** ** Further properties of the first loop *)

Section Further.

Variable X : libxbps.

(** The calls of an iteration are about its entry, and an entry that is
    UNPACKED gets none. *)
Lemma apply_entry_about T l obj tr r d :
  apply_entry X T l obj tr = (r, tr ++ d) ->
  Forall (about obj) d /\ (d <> [] -> unpacked obj = false).
Proof.
  intros H. unfold_entry H. entry_paths H.
  all: split_trace H.
  all: unfold unpacked; use_eqns.
  all: try match goal with p : pkg_state_t |- _ => destruct p; try discriminate end.
  all: split; [repeat constructor; simpl; auto | intros; congruence].
Qed.

(** The value of [essential] an iteration works with is the one of the
    key, or, without the key, the one the iteration before left. *)
Lemma apply_entry_essential T l obj tr r d :
  apply_entry X T l obj tr = (r, tr ++ d) ->
  Forall (essential_in (prop_dictionary_get_bool (essential obj) (l_essential l))) d /\
  forall l' obj', r = inl (l', obj') ->
    l_essential l' = prop_dictionary_get_bool (essential obj) (l_essential l).
Proof.
  intros H. split.
  - unfold_entry H. entry_paths H.
    all: split_trace H.
    all: repeat match goal with
                | E : negb ?b = true |- _ => apply Bool.negb_true_iff in E
                end.
    all: repeat constructor; simpl; auto.
  - intros l' obj' ->.
    destruct (apply_entry_continue X _ _ _ _ _ _ _ H) as [E _]. exact E.
Qed.

End Further.

(** X1, the skip invariant: whatever the first loop calls is about an entry
    of the sequence that was not UNPACKED when its iteration began; an
    entry that is UNPACKED is never given to remove, unpack, register or
    set-state. *)
Theorem unpacked_entries_are_skipped (X : libxbps) (T : transaction)
  (l : locals) (objs : list pkg_dictionary) (tr : trace) :
  exists d,
    snd (apply_loop X T l objs tr) = tr ++ d /\
    Forall (fun e => exists obj,
                In obj objs /\ unpacked obj = false /\ about obj e) d.
Proof.
  apply apply_loop_emits. intros l0 obj Hin t.
  destruct (apply_entry X T l0 obj t) as [r t'] eqn:E.
  destruct (apply_entry_extends X _ _ _ _ _ _ E) as (d & ->).
  destruct (apply_entry_about X _ _ _ _ _ _ E) as [F Hu].
  exists d. split; [reflexivity |].
  destruct d as [| e d]; [constructor |].
  eapply Forall_impl; [| exact F].
  intros e' He'. exists obj. repeat split; auto. apply Hu. discriminate.
Qed.

(** X2: an update through [xbps_install_pkg] never assigns [curpkgname],
    which [calloc] left [NULL]: in a transaction of type [TRANS_ONE] with
    [update] set, the iteration of an entry that is not UNPACKED gives
    [NULL] to [strcmp], before anything is called for the entry. *)
Theorem update_compares_null_curpkgname (X : libxbps) (T : transaction)
  (l : locals) (obj : pkg_dictionary) (tr : trace) (o : string) :
  type T = TRANS_ONE ->
  update T = true ->
  curpkgname T = None ->
  originpkgname T = Some o ->
  state obj = Some XBPS_PKG_STATE_NOT_UNPACKED ->
  apply_entry X T l obj tr = (inr Undefined, tr).
Proof.
  intros Ht Hu Hc Ho Hs.
  unfold apply_entry, is_dependency, replaces_installed, strcmp_ptr,
    xbps_get_pkg_state_dictionary, bind, ret, undefined.
  rewrite Ht, Hu, Hc, Ho, Hs. reflexivity.
Qed.

(** X2 at work: the update of "foo" through [xbps_install_pkg]. *)
Lemma update_compares_null_curpkgname_witness :
  fst (run (xbps_install_pkg foo_installed_env "foo" true true) []) = Undefined /\
  apply_entry foo_installed_env update_trans (mk_locals false false) foo []
    = (inr Undefined, []).
Proof.
  split; [reflexivity |].
  apply (update_compares_null_curpkgname foo_installed_env update_trans
           (mk_locals false false) foo [] "foo"); reflexivity.
Defined.

(** X3: an entry without the ["essential"] key is handled with the value of
    [essential] the iteration before it left: the one of the last entry
    that had the key, or [false] at the start.  After an essential
    package, such an entry is not removed and is unpacked as essential. *)
Theorem essential_key_carried_over (X : libxbps) (T : transaction)
  (l : locals) (obj : pkg_dictionary) (tr : trace)
  (r : locals * pkg_dictionary + outcome) (d : trace) :
  essential obj = None ->
  apply_entry X T l obj tr = (r, tr ++ d) ->
  Forall (essential_in (l_essential l)) d /\
  forall l' obj', r = inl (l', obj') -> l_essential l' = l_essential l.
Proof.
  intros Hk H.
  destruct (apply_entry_essential X _ _ _ _ _ _ H) as [F Hl].
  rewrite Hk in F, Hl. simpl in F, Hl. auto.
Qed.

(** X3 at work: in a transaction of type [TRANS_ALL], "plain" has no
    ["essential"] key and comes after the essential "foo"; both are
    installed, and none is removed. *)
Lemma essential_key_carried_over_witness :
  calls (snd (exec_transaction bulk_env bulk_trans []))
    = [ Ev_humanize_number 20 (Some "1K"%string);
        Ev_humanize_number 40 (Some "1K"%string);
        Ev_check_pkg_file_hash foo_essential "/repo" 0;
        Ev_check_pkg_file_hash plain_pkg "/repo" 0;
        Ev_find_pkg_installed "foo" (Some old_foo);
        Ev_unpack_binary_pkg foo_essential true 0;
        Ev_register_pkg foo_essential false 0;
        Ev_set_pkg_state foo_essential XBPS_PKG_STATE_UNPACKED 0;
        Ev_find_pkg_installed "plain" (Some old_foo);
        Ev_unpack_binary_pkg plain_pkg true 0;
        Ev_register_pkg plain_pkg false 0;
        Ev_set_pkg_state plain_pkg XBPS_PKG_STATE_UNPACKED 0;
        Ev_configure_pkg "foo" "1.0" 0;
        Ev_configure_pkg "plain" "1.0" 0 ] /\
  Forall (essential_in true) plain_d /\
  forall l' obj', plain_r = inl (l', obj') -> l_essential l' = true.
Proof.
  split; [reflexivity |].
  apply (essential_key_carried_over bulk_env bulk_trans (mk_locals true false)
           plain_pkg [] plain_r plain_d); reflexivity.
Defined.

(** ** The first loop: what it changes, and in which order *)

(** Turns the tests on answers that were zero into equations. *)
Ltac zero_answers :=
  repeat match goal with
         | E : negb (negb _) = _ |- _ => rewrite Bool.negb_involutive in E
         | E : negb (_ =? 0) = false |- _ => apply Bool.negb_false_iff in E
         | E : negb (_ =? 0) = true |- _ => apply Bool.negb_true_iff in E
         | E : negb _ = true |- _ => apply Bool.negb_true_iff in E
         | E : negb _ = false |- _ => apply Bool.negb_false_iff in E
         | E : (?rv =? 0) = true |- _ => apply Z.eqb_eq in E; subst rv
         end.

Section Order.

Variable X : libxbps.

(** The calls of an iteration that unpacks its entry: the look-up and the
    removal if the entry replaces an installed package, then unpack,
    register and set-state, each answering zero. *)
Lemma apply_entry_order T l obj tr l' obj' d :
  apply_entry X T l obj tr = (inl (l', obj'), tr ++ d) ->
  unpacked obj = false ->
  let ess := prop_dictionary_get_bool (essential obj) (l_essential l) in
  let steps :=
    [ Ev_unpack_binary_pkg obj ess 0;
      Ev_register_pkg obj (dep_flag T obj || l_isdep l) 0;
      Ev_set_pkg_state obj XBPS_PKG_STATE_UNPACKED 0 ] in
  if replaces_flag T obj then
    exists inst,
      calls d =
        Ev_find_pkg_installed (pkgname obj) (Some inst)
        :: (if ess then []
            else [Ev_remove_pkg (pkgname obj) (version obj) true 0]) ++ steps
  else calls d = steps.
Proof.
  intros H Hu. unfold unpacked in Hu. unfold_entry H.
  entry_paths H; try discriminate.
  all: split_trace H.
  all: try match goal with
           | p : pkg_state_t |- _ => destruct p; simpl in *; try discriminate
           end.
  all: zero_answers.
  all: unfold replaces_flag, dep_flag, calls; simpl; use_eqns; simpl.
  all: try reflexivity.
  all: try (eexists; reflexivity).
Qed.

End Order.

Section Marks.

Variable X : libxbps.

(** What an iteration that goes on has unpacked, registered and marked:
    its entry, once, if the entry was not UNPACKED, and nothing
    otherwise. *)
Lemma apply_entry_marks T l obj tr l' obj' d :
  apply_entry X T l obj tr = (inl (l', obj'), tr ++ d) ->
  map fst (unpackings d) = filter not_unpacked [obj] /\
  map fst (registrations d) = filter not_unpacked [obj] /\
  map fst (state_changes d) = filter not_unpacked [obj].
Proof.
  intros H. unfold_entry H. entry_paths H; try discriminate.
  all: split_trace H.
  all: unfold not_unpacked, unpacked; simpl; use_eqns.
  all: try match goal with
           | p : pkg_state_t |- _ => destruct p; simpl in *; try discriminate
           end.
  all: repeat split; reflexivity.
Qed.

(** An iteration that goes on did not give [NULL] to [strcmp]. *)
Lemma apply_entry_origin T l obj tr l' obj' tr' :
  apply_entry X T l obj tr = (inl (l', obj'), tr') ->
  type T = TRANS_ALL \/ exists o, originpkgname T = Some o.
Proof.
  intros H. unfold_entry H.
  destruct (type T); [| left; reflexivity].
  destruct (originpkgname T) as [o |]; [right; eauto | discriminate].
Qed.

(** An entry that is UNPACKED is passed over without any event. *)
Lemma apply_entry_unpacked T l obj tr :
  unpacked obj = true ->
  type T = TRANS_ALL \/ (exists o, originpkgname T = Some o) ->
  apply_entry X T l obj tr =
    (inl (mk_locals (prop_dictionary_get_bool (essential obj) (l_essential l))
            (dep_flag T obj || l_isdep l), obj), tr).
Proof.
  unfold unpacked. intros Hu Ho.
  unfold apply_entry, is_dependency, strcmp_ptr, dep_flag,
    xbps_get_pkg_state_dictionary, bind, ret.
  destruct (state obj) as [[|] |]; try discriminate.
  destruct Ho as [-> | (o & ->)]; simpl; [reflexivity |].
  destruct (type T); simpl; [| reflexivity].
  destruct (negb (strcmp o (pkgname obj) =? 0)); reflexivity.
Qed.

(** The first loop changes nothing in the array but the state of the
    entries it unpacks. *)
Lemma apply_loop_frame T objs :
  forall l tr r objs' tr',
    apply_loop X T l objs tr = (r, objs', tr') ->
    Forall2 state_step objs objs'.
Proof.
  assert (Hrefl : forall os, Forall2 state_step os os).
  { induction os; constructor; auto. left; reflexivity. }
  induction objs as [| obj rest IH]; intros l tr r objs' tr' H; simpl in H.
  - inversion H; subst. constructor.
  - destruct (apply_entry X T l obj tr) as [[[l1 obj1] | o] tr1] eqn:E1.
    + destruct (apply_loop X T l1 rest tr1) as [[r2 rest'] tr2] eqn:E2.
      inversion H; subst; clear H.
      destruct (apply_entry_extends X _ _ _ _ _ _ E1) as (d & ->).
      constructor; [| eapply IH; eauto].
      destruct (apply_entry_continue X _ _ _ _ _ _ _ E1)
        as [_ [(_ & -> & _) | (Hu & -> & _)]]; [left | right]; auto.
    + inversion H; subst. apply Hrefl.
Qed.

(** When the first loop runs to its end, what it has unpacked, registered
    and marked are the entries that were not UNPACKED, each of them once,
    in the order of the array. *)
Lemma apply_loop_marks T objs :
  forall l tr l' objs' d,
    apply_loop X T l objs tr = (inl l', objs', tr ++ d) ->
    map fst (unpackings d) = filter not_unpacked objs /\
    map fst (registrations d) = filter not_unpacked objs /\
    map fst (state_changes d) = filter not_unpacked objs.
Proof.
  induction objs as [| obj rest IH]; intros l tr l' objs' d H; simpl in H.
  - inversion H as [[E1 E2 E3]]. apply app_self_inv in E3. subst. auto.
  - destruct (apply_entry X T l obj tr) as [[[l1 obj1] | o] tr1] eqn:E1;
      [| discriminate].
    destruct (apply_entry_extends X _ _ _ _ _ _ E1) as (d1 & ->).
    destruct (apply_loop X T l1 rest (tr ++ d1)) as [[r2 rest'] tr2] eqn:E2.
    destruct (apply_loop_extends X _ _ _ _ _ _ _ E2) as (d2 & ->).
    inversion H as [[Er Eo Et]]. subst r2.
    rewrite <- app_assoc in Et. apply app_inv_head in Et. subst d.
    destruct (apply_entry_marks _ _ _ _ _ _ _ E1) as (U1 & R1 & S1).
    destruct (IH _ _ _ _ _ E2) as (U2 & R2 & S2).
    unfold unpackings, registrations, state_changes in *.
    rewrite !collect_app, !map_app, U1, R1, S1, U2, R2, S2.
    change (obj :: rest) with ([obj] ++ rest). rewrite filter_app. auto.
Qed.

End Marks.

(** X4: whatever [exec_transaction] returns, the array it leaves holds
    the dictionaries it was given, in the same order; the only change is
    that the state UNPACKED has been stored in entries that were not
    UNPACKED.  No entry goes back from UNPACKED, and no other key is
    written. *)
Theorem exec_transaction_only_marks_unpacked (X : libxbps) (T : transaction)
  (tr : trace) :
  Forall2 state_step (iter T) (snd (fst (exec_transaction X T tr))).
Proof.
  assert (Hrefl : forall os, Forall2 state_step os os).
  { induction os; constructor; auto. left; reflexivity. }
  destruct (exec_transaction_path X T tr)
    as [o d1 R1 _ | o d1 d2 R1 R2 | o d1 d2 d3 R1 R2 R3 _
        | o objs d1 d2 d3 d4 R1 R2 R3 R4 | o l objs d1 d2 d3 d4 d5 R1 R2 R3 R4 R5];
    simpl; auto; eapply apply_loop_frame; eauto.
Qed.

(** X5: the steps of one entry come in a fixed order.  An iteration of
    the first loop that completes for an entry that was not UNPACKED has
    called, in this order and each with the answer zero: the look-up of
    the installed package and, unless [essential] holds, its removal,
    when the entry replaces an installed package; then unpack, register
    and set-state for the entry. *)
Theorem entry_steps_in_order (X : libxbps) (T : transaction) (l l' : locals)
  (obj obj' : pkg_dictionary) (tr d : trace) :
  apply_entry X T l obj tr = (inl (l', obj'), tr ++ d) ->
  unpacked obj = false ->
  let ess := prop_dictionary_get_bool (essential obj) (l_essential l) in
  let steps :=
    [ Ev_unpack_binary_pkg obj ess 0;
      Ev_register_pkg obj (dep_flag T obj || l_isdep l) 0;
      Ev_set_pkg_state obj XBPS_PKG_STATE_UNPACKED 0 ] in
  if replaces_flag T obj then
    exists inst,
      calls d =
        Ev_find_pkg_installed (pkgname obj) (Some inst)
        :: (if ess then []
            else [Ev_remove_pkg (pkgname obj) (version obj) true 0]) ++ steps
  else calls d = steps.
Proof. apply apply_entry_order. Qed.

(** X5 at work: in a transaction of type [TRANS_ALL], "foo" is looked up
    and removed before it is unpacked. *)
Lemma entry_steps_in_order_witness :
  exists inst,
    calls (skipn 0 (snd (apply_entry bulk_env bulk_trans (mk_locals false false)
                           foo []))) =
      Ev_find_pkg_installed "foo" (Some inst)
      :: [Ev_remove_pkg "foo" "1.0" true 0] ++
         [ Ev_unpack_binary_pkg foo false 0;
           Ev_register_pkg foo false 0;
           Ev_set_pkg_state foo XBPS_PKG_STATE_UNPACKED 0 ].
Proof.
  apply (entry_steps_in_order bulk_env bulk_trans (mk_locals false false)
           (mk_locals false false) foo (set_state foo XBPS_PKG_STATE_UNPACKED) []
           (snd (apply_entry bulk_env bulk_trans (mk_locals false false) foo [])));
    reflexivity.
Defined.

(** X6: when the first loop runs to its end, the entries given to
    [xbps_unpack_binary_pkg], to [xbps_register_pkg] and to
    [xbps_set_pkg_state_dictionary] are exactly the entries that were not
    UNPACKED, each of them once and in the order of the array. *)
Theorem first_loop_handles_each_entry_once (X : libxbps) (T : transaction)
  (l l' : locals) (objs objs' : list pkg_dictionary) (tr d : trace) :
  apply_loop X T l objs tr = (inl l', objs', tr ++ d) ->
  map fst (unpackings d) = filter not_unpacked objs /\
  map fst (registrations d) = filter not_unpacked objs /\
  map fst (state_changes d) = filter not_unpacked objs.
Proof. apply apply_loop_marks. Qed.

(** X6 at work: "foo" was UNPACKED by an earlier run, "bar" was not. *)
Lemma first_loop_handles_each_entry_once_witness :
  map fst (unpackings (skipn (List.length resumed_t0) resumed_t1)) = [bar] /\
  map fst (registrations (skipn (List.length resumed_t0) resumed_t1)) = [bar] /\
  map fst (state_changes (skipn (List.length resumed_t0) resumed_t1)) = [bar].
Proof.
  apply (first_loop_handles_each_entry_once all_ok_env resumed_trans
           (mk_locals false false) (mk_locals false false)
           [foo_unpacked; bar]
           [foo_unpacked; set_state bar XBPS_PKG_STATE_UNPACKED]
           resumed_t0 (skipn (List.length resumed_t0) resumed_t1)).
  reflexivity.
Defined.

(** X7: the first loop can be entered again.  Once it has run to its end,
    a second run over the array it left passes over every entry: it
    calls nothing, prints nothing and leaves the array as it is. *)
Theorem first_loop_is_resumable (X : libxbps) (T : transaction)
  (l l' : locals) (objs objs' : list pkg_dictionary) (tr tr' : trace) :
  apply_loop X T l objs tr = (inl l', objs', tr') ->
  forall l2 t, exists l3, apply_loop X T l2 objs' t = (inl l3, objs', t).
Proof.
  intros H.
  destruct (apply_loop_continue X _ _ _ _ _ _ _ H) as [F _].
  destruct objs as [| obj rest].
  - simpl in H. inversion H; subst. intros l2 t. exists l2. reflexivity.
  - assert (Ho : type T = TRANS_ALL \/ exists o, originpkgname T = Some o).
    { simpl in H.
      destruct (apply_entry X T l obj tr) as [[[l1 obj1] | o] tr1] eqn:E1;
        [| discriminate].
      eapply apply_entry_origin; eauto. }
    clear H. induction F as [| o os Hu F IH]; intros l2 t.
    + exists l2. reflexivity.
    + simpl. rewrite (apply_entry_unpacked X T l2 o t Hu Ho).
      destruct (IH (mk_locals (prop_dictionary_get_bool (essential o) (l_essential l2))
                      (dep_flag T o || l_isdep l2)) t) as (l3 & E).
      rewrite E. exists l3. reflexivity.
Qed.

(** X7 at work: the three packages, unpacked by a first run. *)
Lemma first_loop_is_resumable_witness :
  exists l3,
    apply_loop all_ok_env three_pkgs_trans (mk_locals false false)
      [ set_state foo XBPS_PKG_STATE_UNPACKED;
        set_state bar XBPS_PKG_STATE_UNPACKED;
        set_state baz XBPS_PKG_STATE_UNPACKED ] three_pkgs_applied
    = (inl l3,
       [ set_state foo XBPS_PKG_STATE_UNPACKED;
         set_state bar XBPS_PKG_STATE_UNPACKED;
         set_state baz XBPS_PKG_STATE_UNPACKED ], three_pkgs_applied).
Proof.
  apply (first_loop_is_resumable all_ok_env three_pkgs_trans
           (mk_locals false false) (mk_locals false false)
           [foo; bar; baz]
           [ set_state foo XBPS_PKG_STATE_UNPACKED;
             set_state bar XBPS_PKG_STATE_UNPACKED;
             set_state baz XBPS_PKG_STATE_UNPACKED ]
           [] three_pkgs_applied eq_refl (mk_locals false false)
           three_pkgs_applied).
Defined.

(** From a run of [exec_transaction], the way it went. *)
Ltac exec_cases H :=
  match type of H with
  | exec_transaction ?X ?T ?tr = _ =>
      let P := fresh "P" in
      pose proof (exec_transaction_path X T tr) as P; rewrite H in P;
      inversion P as
        [o' d1 R1 Ho Eo
        | o' d1 d2 R1 R2 Eo
        | o' d1 d2 d3 R1 R2 R3 Ho Eo
        | o' objs' d1 d2 d3 d4 R1 R2 R3 R4 Eo
        | o' l' objs' d1 d2 d3 d4 d5 R1 R2 R3 R4 R5 Eo];
      clear P;
      match goal with
      | E : _ = ?tr ++ ?d |- _ =>
          rewrite <- ?app_assoc in E; apply app_inv_head in E; subst d
      end
  end.

Section Runs.

Variable X : libxbps.

Lemma ask_to_continue_returns T t o d2 :
  ask_to_continue X T t = (inr o, t ++ d2) ->
  o = Returned 0 /\ declined d2.
Proof.
  unfold ask_to_continue, noyes, bind, ask, printf, emit, ret, return_.
  destruct (force T); simpl; [discriminate |].
  destruct (xbps_noyes X t _) eqn:Ey; simpl; [discriminate |].
  intros E. inversion E as [[Er Et]]. rewrite <- ?app_assoc in Et.
  apply app_inv_head in Et. subst d2. split; [reflexivity |].
  eexists. left. reflexivity.
Qed.

(** The gate does not pass an entry whose state cannot be read. *)
Lemma check_pkg_hashes_loop_unreadable obj objs :
  In obj objs -> state obj = None ->
  forall tr, exists o, fst (check_pkg_hashes_loop X objs tr) = inr (Returned o) /\ o <> 0.
Proof.
  intros Hin Hs. induction objs as [| a rest IH]; [destruct Hin |].
  intros tr. simpl. unfold xbps_get_pkg_state_dictionary.
  destruct (state a) as [st |] eqn:Ea.
  - assert (Hr : In obj rest) by (destruct Hin as [-> | Hr]; [congruence | exact Hr]).
    specialize (IH Hr).
    destruct (is_unpacked st); [apply IH |].
    unfold bind, check_pkg_file_hash, ask, printf, emit, return_.
    destruct (negb (_ =? 0) && negb (_ =? ERANGE)); simpl.
    + exists (-1). split; [reflexivity | discriminate].
    + destruct (negb (_ =? 0) && (_ =? ERANGE)); simpl.
      * exists (-1). split; [reflexivity | discriminate].
      * apply IH.
  - exists EINVAL. split; [reflexivity | discriminate].
Qed.

Lemma check_pkg_hashes_unreadable obj objs tr t' :
  In obj objs -> state obj = None ->
  run (check_pkg_hashes X objs) tr <> (Returned 0, t').
Proof.
  intros Hin Hs. unfold run, check_pkg_hashes, bind, printf, emit, ret.
  destruct (check_pkg_hashes_loop_unreadable obj objs Hin Hs
              (tr ++ [Ev_printf (cat ["Checking binary package file(s) integrity..."%string; LF])]))
    as (o & E & Ho).
  destruct (check_pkg_hashes_loop X objs _) as [r t1]. simpl in E. subst r.
  intros C. inversion C. congruence.
Qed.

(** A first loop that runs to its end holds no step that failed. *)
Lemma apply_loop_steps_ok T objs :
  forall l tr l' objs' d,
    apply_loop X T l objs tr = (inl l', objs', tr ++ d) ->
    existsb failed_step d = false.
Proof.
  induction objs as [| obj rest IH]; intros l tr l' objs' d H; simpl in H.
  - inversion H as [[E1 E2 E3]]. apply app_self_inv in E3. subst. reflexivity.
  - destruct (apply_entry X T l obj tr) as [[[l1 obj1] | o] tr1] eqn:E1;
      [| discriminate].
    destruct (apply_entry_extends X _ _ _ _ _ _ E1) as (d1 & ->).
    destruct (apply_loop X T l1 rest (tr ++ d1)) as [[r2 rest'] tr2] eqn:E2.
    destruct (apply_loop_extends X _ _ _ _ _ _ _ E2) as (d2 & ->).
    inversion H as [[Er Eo Et]]. subst r2.
    rewrite <- app_assoc in Et. apply app_inv_head in Et. subst d.
    rewrite existsb_app, (IH _ _ _ _ _ E2), Bool.orb_false_r.
    destruct (apply_entry_continue X _ _ _ _ _ _ _ E1)
      as [_ [(_ & _ & -> & _) | (_ & _ & _ & _ & F)]]; auto.
Qed.

End Runs.

Lemma existsb_kind (P Q : event -> bool) d :
  (forall e, P e = true -> Q e = false) ->
  Forall (fun e => P e = true) d -> existsb Q d = false.
Proof.
  intros HP F. induction F as [| e d He _ IH]; simpl; auto.
  rewrite (HP e He), IH. reflexivity.
Qed.

(** X8: a transaction with an entry whose state cannot be read changes
    nothing.  [exec_transaction] calls none of remove, unpack, register,
    set-state and configure, leaves the array as it was, and returns zero
    only when the user declined. *)
Theorem unreadable_state_changes_nothing (X : libxbps) (T : transaction)
  (tr d : trace) (o : outcome) (objs : list pkg_dictionary)
  (obj : pkg_dictionary) :
  exec_transaction X T tr = (o, objs, tr ++ d) ->
  In obj (iter T) ->
  state obj = None ->
  objs = iter T /\
  Forall (fun e => is_mutation e = false) d /\
  (o = Returned 0 -> declined d).
Proof.
  intros H Hin Hs.
  pose proof (show_transaction_sizes_emits X (iter T) (transaction_descr T)) as S.
  pose proof (ask_to_continue_emits X T) as A.
  pose proof (check_pkg_hashes_emits X (iter T)) as G.
  assert (M1 : forall d, Forall (fun e => is_summary_event e = true) d ->
                         Forall (fun e => is_mutation e = false) d)
    by (intros d0; apply Forall_kind; by_kind).
  assert (M2 : forall d, Forall (fun e => is_confirm_event e = true) d ->
                         Forall (fun e => is_mutation e = false) d)
    by (intros d0; apply Forall_kind; by_kind).
  assert (M3 : forall d, Forall (fun e => is_hash_event e = true) d ->
                         Forall (fun e => is_mutation e = false) d)
    by (intros d0; apply Forall_kind; by_kind).
  exec_cases H; subst.
  - split; [reflexivity |]. split; [| congruence].
    apply M1. eapply emits_run_inv; eauto.
  - split; [reflexivity |].
    destruct (ask_to_continue_returns X _ _ _ _ R2) as [-> Hd].
    split.
    + apply Forall_app; split;
        [apply M1; eapply emits_run_inv; eauto | apply M2; eapply emits_inv; eauto].
    + intros _. destruct Hd as (p & Hp). exists p. apply in_or_app. auto.
  - split; [reflexivity |]. split; [| congruence].
    repeat (apply Forall_app; split);
      [ apply M1; eapply emits_run_inv; eauto
      | apply M2; eapply emits_inv; eauto
      | apply M3; eapply emits_run_inv; eauto ].
  - destruct (check_pkg_hashes_unreadable X obj _ _ _ Hin Hs R3).
  - destruct (check_pkg_hashes_unreadable X obj _ _ _ Hin Hs R3).
Qed.

(** X8 at work: the state of the second entry cannot be read. *)
Lemma unreadable_state_changes_nothing_witness :
  [foo; old_foo] = iter unreadable_trans /\
  Forall (fun e => is_mutation e = false) unreadable_d /\
  (Returned EINVAL = Returned 0 -> declined unreadable_d).
Proof.
  apply (unreadable_state_changes_nothing all_ok_env unreadable_trans []
           unreadable_d (Returned EINVAL) [foo; old_foo] old_foo).
  - reflexivity.
  - right. left. reflexivity.
  - reflexivity.
Defined.

(** X9: [xbps_configure_pkg] is called only when the first loop has gone
    through the whole array: when [exec_transaction] has called it, every
    entry of the array is UNPACKED and no remove, unpack, register or
    set-state step of the run has failed. *)
Theorem configure_only_when_all_unpacked (X : libxbps) (T : transaction)
  (tr d : trace) (o : outcome) (objs : list pkg_dictionary) :
  exec_transaction X T tr = (o, objs, tr ++ d) ->
  configure_calls d <> [] ->
  Forall (fun obj => unpacked obj = true) objs /\
  map name_version objs = map name_version (iter T) /\
  existsb failed_step d = false.
Proof.
  intros H Hc.
  pose proof (show_transaction_sizes_emits X (iter T) (transaction_descr T)) as S.
  pose proof (ask_to_continue_emits X T) as A.
  pose proof (check_pkg_hashes_emits X (iter T)) as G.
  pose proof (fun l obj (_ : In obj (iter T)) => apply_entry_emits X T l obj) as L.
  assert (C1 : forall d, Forall (fun e => is_summary_event e = true) d ->
                         configure_calls d = [])
    by (intros d0; apply collect_kind; by_kind).
  assert (C2 : forall d, Forall (fun e => is_confirm_event e = true) d ->
                         configure_calls d = [])
    by (intros d0; apply collect_kind; by_kind).
  assert (C3 : forall d, Forall (fun e => is_hash_event e = true) d ->
                         configure_calls d = [])
    by (intros d0; apply collect_kind; by_kind).
  assert (C4 : forall d, Forall (fun e => is_apply_event e = true) d ->
                         configure_calls d = [])
    by (intros d0; apply collect_kind; by_kind).
  assert (F1 : forall d, Forall (fun e => is_summary_event e = true) d ->
                         existsb failed_step d = false)
    by (intros d0; apply existsb_kind; by_kind).
  assert (F2 : forall d, Forall (fun e => is_confirm_event e = true) d ->
                         existsb failed_step d = false)
    by (intros d0; apply existsb_kind; by_kind).
  assert (F3 : forall d, Forall (fun e => is_hash_event e = true) d ->
                         existsb failed_step d = false)
    by (intros d0; apply existsb_kind; by_kind).
  assert (F5 : forall d, Forall (fun e => is_configure_event e = true) d ->
                         existsb failed_step d = false)
    by (intros d0; apply existsb_kind; by_kind).
  exec_cases H; subst.
  - destruct Hc. apply C1. eapply emits_run_inv; eauto.
  - destruct Hc. unfold configure_calls in *. rewrite collect_app.
    rewrite (C1 d1), (C2 d2); [reflexivity | |];
      [eapply emits_inv; eauto | eapply emits_run_inv; eauto].
  - destruct Hc. unfold configure_calls in *. rewrite !collect_app.
    rewrite (C1 d1), (C2 d2), (C3 d3); [reflexivity | | |];
      [ eapply emits_run_inv; eauto | eapply emits_inv; eauto
      | eapply emits_run_inv; eauto ].
  - destruct Hc. unfold configure_calls in *. rewrite !collect_app.
    rewrite (C1 d1), (C2 d2), (C3 d3), (C4 d4); [reflexivity | | | |];
      [ eapply apply_loop_inv; eauto | eapply emits_run_inv; eauto
      | eapply emits_inv; eauto | eapply emits_run_inv; eauto ].
  - destruct (apply_loop_continue X _ _ _ _ _ _ _ R4) as [U N].
    split; [exact U |]. split; [exact N |].
    rewrite !existsb_app.
    rewrite (F1 d1), (F2 d2), (F3 d3), (apply_loop_steps_ok X _ _ _ _ _ _ _ R4),
      (F5 d5); [reflexivity | | | |];
      [ eapply emits_run_inv; [apply configure_emits | eauto]
      | eapply emits_run_inv; eauto | eapply emits_inv; eauto
      | eapply emits_run_inv; eauto ].
Qed.

(** X9 at work: "foo", "bar" and "baz" are configured. *)
Lemma configure_only_when_all_unpacked_witness :
  Forall (fun obj => unpacked obj = true)
    [ set_state foo XBPS_PKG_STATE_UNPACKED;
      set_state bar XBPS_PKG_STATE_UNPACKED;
      set_state baz XBPS_PKG_STATE_UNPACKED ] /\
  map name_version
    [ set_state foo XBPS_PKG_STATE_UNPACKED;
      set_state bar XBPS_PKG_STATE_UNPACKED;
      set_state baz XBPS_PKG_STATE_UNPACKED ]
    = map name_version (iter three_pkgs_trans) /\
  existsb failed_step three_pkgs_d = false.
Proof.
  apply (configure_only_when_all_unpacked all_ok_env three_pkgs_trans []
           three_pkgs_d (Returned 0)).
  - reflexivity.
  - discriminate.
Defined.

Section Summary.

Variable X : libxbps.

(** [show_transaction_sizes] returns zero when both sizes were formatted,
    and -1 otherwise. *)
Lemma show_transaction_sizes_result it descr tr o d :
  run (show_transaction_sizes X it descr) tr = (o, tr ++ d) ->
  (o = Returned 0 /\ existsb formatter_failed d = false) \/
  (o = Returned (-1) /\ existsb formatter_failed d = true).
Proof.
  unfold run, show_transaction_sizes.
  destruct (sum_sizes it 0 0) as [dlsize instsize].
  unfold bind, printf, emit, humanize, ask, read, return_, ret.
  destruct (show_pkg_list_prints it 0 false
              (tr ++ [Ev_printf (cat [LF; "The following new packages will be "%string;
                                      descr; ":"%string; LF; LF])]))
    as (d0 & E & F).
  rewrite E.
  assert (F0 : existsb formatter_failed d0 = false).
  { revert F. apply existsb_kind. by_kind. }
  destruct (xbps_humanize_number X (to_int64 dlsize)) as [s1 |] eqn:E1;
    [destruct (xbps_humanize_number X (to_int64 instsize)) as [s2 |] eqn:E2 |];
    simpl; intros H; inversion H as [[Ho Et]];
    rewrite <- ?app_assoc in Et; apply app_inv_head in Et; subst d;
    [left | right | right]; (split; [reflexivity |]);
    simpl; rewrite !existsb_app, F0; simpl; rewrite ?E1, ?E2; reflexivity.
Qed.

End Summary.

(** X10: when [xbps_humanize_number] fails for one of the two totals,
    [exec_transaction] returns -1 at once: the array is as it was, and
    the run holds nothing but the output and the size formatting of the
    summary, so that the user was not asked, no hash was checked and
    nothing was removed, unpacked, registered or configured. *)
Theorem formatter_failure_stops_transaction (X : libxbps) (T : transaction)
  (tr d : trace) (o : outcome) (objs : list pkg_dictionary) :
  exec_transaction X T tr = (o, objs, tr ++ d) ->
  existsb formatter_failed d = true ->
  o = Returned (-1) /\ objs = iter T /\
  Forall (fun e => is_summary_event e = true) d /\
  Forall (fun e => quiet e = true) d.
Proof.
  intros H Hf.
  pose proof (ask_to_continue_emits X T) as A.
  pose proof (check_pkg_hashes_emits X (iter T)) as G.
  pose proof (fun l obj (_ : In obj (iter T)) => apply_entry_emits X T l obj) as L.
  assert (Q1 : forall d, Forall (fun e => is_summary_event e = true) d ->
                         Forall (fun e => quiet e = true) d)
    by (intros d0; apply Forall_kind; by_kind).
  assert (F2 : forall d, Forall (fun e => is_confirm_event e = true) d ->
                         existsb formatter_failed d = false)
    by (intros d0; apply existsb_kind; by_kind).
  assert (F3 : forall d, Forall (fun e => is_hash_event e = true) d ->
                         existsb formatter_failed d = false)
    by (intros d0; apply existsb_kind; by_kind).
  assert (F4 : forall d, Forall (fun e => is_apply_event e = true) d ->
                         existsb formatter_failed d = false)
    by (intros d0; apply existsb_kind; by_kind).
  assert (F5 : forall d, Forall (fun e => is_configure_event e = true) d ->
                         existsb formatter_failed d = false)
    by (intros d0; apply existsb_kind; by_kind).
  exec_cases H; subst;
    destruct (show_transaction_sizes_result X _ _ _ _ _ R1) as [[E1 N1] | [E1 N1]];
    try congruence.
  - pose proof (emits_run_inv _ _ _ _ _
                  (show_transaction_sizes_emits X (iter T) (transaction_descr T)) R1).
    auto.
  - rewrite existsb_app, N1, (F2 d2) in Hf; [discriminate |].
    eapply emits_inv; eauto.
  - rewrite !existsb_app, N1, (F2 d2), (F3 d3) in Hf; [discriminate | |].
    + eapply emits_run_inv; eauto.
    + eapply emits_inv; eauto.
  - rewrite !existsb_app, N1, (F2 d2), (F3 d3), (F4 d4) in Hf; [discriminate | | |].
    + eapply apply_loop_inv; eauto.
    + eapply emits_run_inv; eauto.
    + eapply emits_inv; eauto.
  - rewrite !existsb_app, N1, (F2 d2), (F3 d3), (F4 d4), (F5 d5) in Hf;
      [discriminate | | | |].
    + eapply emits_run_inv; [apply configure_emits | eauto].
    + eapply apply_loop_inv; eauto.
    + eapply emits_run_inv; eauto.
    + eapply emits_inv; eauto.
Qed.

(** X10 at work: three packages, and a formatter that fails. *)
Lemma formatter_failure_stops_transaction_witness :
  Returned (-1) = Returned (-1) /\
  [foo; bar; baz] = iter three_pkgs_trans /\
  Forall (fun e => is_summary_event e = true) no_formatter_d /\
  Forall (fun e => quiet e = true) no_formatter_d.
Proof.
  apply (formatter_failure_stops_transaction no_formatter_env three_pkgs_trans
           [] no_formatter_d (Returned (-1)) [foo; bar; baz]); reflexivity.
Defined.

(** ** The width of the list of packages *)

Lemma length_append (a b : string) :
  String.length (a ++ b) = (String.length a + String.length b)%nat.
Proof. induction a as [| c a IH]; simpl; [reflexivity | rewrite IH; reflexivity]. Qed.

Lemma cursor_le s : forall c, (cursor c s <= c + String.length s)%nat.
Proof.
  induction s as [| a s IH]; intros c; simpl; [lia |].
  destruct (is_LF a); [specialize (IH 0%nat) | specialize (IH (S c))]; lia.
Qed.

Lemma within_fits n s : forall c,
  (c + String.length s <= n)%nat -> within n c s = true.
Proof.
  induction s as [| a s IH]; intros c Hc; [reflexivity |].
  cbn [within]. cbn [String.length] in Hc.
  destruct (is_LF a).
  - apply IH. lia.
  - rewrite IH by lia. rewrite Bool.andb_true_r. apply Nat.leb_le. lia.
Qed.

Lemma printed_printf s d : printed (Ev_printf s :: d) = s :: printed d.
Proof. reflexivity. Qed.

Lemma entry_text_length (obj : pkg_dictionary) :
  (String.length (cat [pkgname obj; "-"%string; version obj; " "%string]) + 2
   = entry_width obj)%nat.
Proof.
  unfold cat, entry_width. simpl. repeat (rewrite length_append; simpl). lia.
Qed.

(** Writing [s1], then [s2], then what fits from where the cursor is. *)
Lemma within_all_2 a s1 s2 l :
  within 80 a s1 = true ->
  within 80 (cursor a s1) s2 = true ->
  within_all 80 (cursor (cursor a s1) s2) l = true ->
  within_all 80 a (s1 :: s2 :: l) = true.
Proof. intros H1 H2 H3. cbn [within_all]. rewrite H1, H2, H3. reflexivity. Qed.

(** The cursor never passes the column [cols] counts, and [cols] stays
    within 80 as long as every entry does. *)
Lemma show_pkg_list_width objs :
  Forall (fun obj => (entry_width obj <= 80)%nat) objs ->
  forall cols first a tr r d,
    (a <= cols)%nat ->
    show_pkg_list objs cols first tr = (r, tr ++ d) ->
    within_all 80 a (printed d) = true.
Proof.
  induction 1 as [| obj rest Hw _ IH]; intros cols first a tr r d Ha H.
  - inversion H as [[Hr Et]]. apply app_self_inv in Et. subst d. reflexivity.
  - cbn [show_pkg_list] in H. fold (entry_width obj) in H.
    pose proof (entry_text_length obj) as L.
    unfold bind, printf, emit, ret in H.
    remember (cat [pkgname obj; "-"%string; version obj; " "%string]) as text
      eqn:Etext in *.
    clear Etext.
    pose proof (cursor_le text) as C.
    destruct (cols + entry_width obj <=? 80)%nat eqn:Ec;
      [apply Nat.leb_le in Ec; destruct (negb first) | apply Nat.leb_gt in Ec];
      cbn [fst snd] in H;
      match type of H with
      | show_pkg_list rest ?c ?f ?t = _ =>
          destruct (show_pkg_list_prints rest c f t) as (d' & E & _);
          rewrite E in H; inversion H as [[Hr Et]];
          rewrite <- ?app_assoc in Et; apply app_inv_head in Et; subst d;
          cbn [app]; rewrite !printed_printf
      end.
    + pose proof (cursor_le (cat ["  "%string]) a) as C2.
      change (String.length (cat ["  "%string])) with 2%nat in C2.
      apply within_all_2.
      * apply within_fits. change (String.length (cat ["  "%string])) with 2%nat. lia.
      * apply within_fits. lia.
      * eapply IH; [| exact E].
        specialize (C (cursor a (cat ["  "%string]))). lia.
    + cbn [within_all]. rewrite within_fits by lia. cbn [andb].
      eapply IH; [| exact E]. specialize (C a). lia.
    + pose proof (cursor_le (cat [LF; "  "%string]) a) as C2.
      apply within_all_2.
      * reflexivity.
      * apply within_fits. change (cursor a (cat [LF; "  "%string])) with 2%nat. lia.
      * eapply IH; [| exact E].
        change (cursor a (cat [LF; "  "%string])) with 2%nat.
        specialize (C 2%nat). lia.
Qed.

(** X11: the list of packages is wrapped at 80 columns.  When no entry is
    wider than 80 columns by the count of [show_transaction_sizes] (the
    lengths of its name and version plus four), the loop that prints the
    list never writes a character beyond column 80. *)
Theorem package_list_fits_80_columns
  (objs : list pkg_dictionary) (tr d : trace) (r : unit + outcome) :
  Forall (fun obj => (entry_width obj <= 80)%nat) objs ->
  show_pkg_list objs 0 false tr = (r, tr ++ d) ->
  within_all 80 0 (printed d) = true.
Proof. intros F H. eapply show_pkg_list_width; eauto. Qed.

(** X11 at work: nine packages of ten columns each; the ninth begins a
    new line. *)
Lemma package_list_fits_80_columns_witness :
  within_all 80 0 (printed nine_pkgs_listing) = true.
Proof.
  apply (package_list_fits_80_columns nine_pkgs [] nine_pkgs_listing (inl tt)).
  - repeat constructor.
  - reflexivity.
Defined.

End Install.
